(** * digger: the plan/apply executor, its locking wrapper and the
      Terraform output sanitizer ([pkg/core/execution/execution.go])

    A shallow embedding of the Go package [execution].  Go strings are byte
    strings and are modelled by [string] (a list of 8-bit [ascii]); Go [int]
    indices are modelled by [Z] (every index computed here lies between [-1]
    and the length of a string, so no wrap-around can occur); a Go run-time
    panic is the [None] of an [option]. *)

From Stdlib Require Import ZArith Lia List Bool Ascii String.
Import ListNotations.

Open Scope string_scope.
Open Scope Z_scope.

(** ** Go strings *)

(** The newline byte, written [\n] in Go. *)
Definition LF : ascii := "010"%char.
Definition nl : string := String LF EmptyString.

(** [len(s)]. *)
Definition len (s : string) : Z := Z.of_nat (String.length s).

(** [s[n:]] and [s[:n]] on naturals, total (clamped); the checked Go slice
    expression is [slice] below. *)
Fixpoint drop (n : nat) (s : string) : string :=
  match n, s with
  | O, _ => s
  | S _, EmptyString => EmptyString
  | S k, String _ s' => drop k s'
  end.

Fixpoint take (n : nat) (s : string) : string :=
  match n, s with
  | O, _ => EmptyString
  | S _, EmptyString => EmptyString
  | S k, String c s' => String c (take k s')
  end.

(** The slice expression [s[lo:hi]]: Go panics ("slice bounds out of range")
    unless [0 <= lo <= hi <= len(s)]. *)
Definition slice (s : string) (lo hi : Z) : option string :=
  if (0 <=? lo) && (lo <=? hi) && (hi <=? len s)
  then Some (take (Z.to_nat (hi - lo)) (drop (Z.to_nat lo) s))
  else None.

(** [m] occurs in [s] as a contiguous run of bytes. *)
Definition Substr (m s : string) : Prop :=
  exists pre post, s = pre ++ m ++ post.

(** [m] occurs in [s] at byte offset [n]. *)
Definition OccursAt (m s : string) (n : nat) : Prop :=
  exists pre post, s = pre ++ m ++ post /\ String.length pre = n.

Module strings.

(** First offset at which [substr] occurs in [s]. *)
Fixpoint index_nat (substr s : string) {struct s} : option nat :=
  if prefix substr s then Some O
  else match s with
       | EmptyString => None
       | String _ s' => option_map S (index_nat substr s')
       end.

(** Last offset at which [substr] occurs in [s]. *)
Fixpoint last_index_nat (substr s : string) {struct s} : option nat :=
  match s with
  | EmptyString => if prefix substr s then Some O else None
  | String _ s' =>
      match last_index_nat substr s' with
      | Some n => Some (S n)
      | None => if prefix substr s then Some O else None
      end
  end.

(** [strings.Index(s, substr)]: the index of the first instance of [substr]
    in [s], or [-1]. *)
Definition Index (s substr : string) : Z :=
  match index_nat substr s with
  | Some n => Z.of_nat n
  | None => -1
  end.

(** [strings.LastIndex(s, substr)]: the index of the last instance of
    [substr] in [s], or [-1]. *)
Definition LastIndex (s substr : string) : Z :=
  match last_index_nat substr s with
  | Some n => Z.of_nat n
  | None => -1
  end.

(** [strings.ReplaceAll(s, old, new)] for a non-empty [old]: the
    non-overlapping instances of [old] are replaced left to right.  [skip]
    counts the bytes of a replaced instance still to be passed over.  (For an
    empty [old] Go inserts [new] around every UTF-8 sequence; the package
    never calls it so, and that case is not modelled.) *)
Fixpoint replace_from (old new : string) (skip : nat) (s : string) : string :=
  match s with
  | EmptyString => EmptyString
  | String c s' =>
      match skip with
      | S k => replace_from old new k s'
      | O =>
          if prefix old s
          then new ++ replace_from old new (Nat.pred (String.length old)) s'
          else String c (replace_from old new O s')
      end
  end.

Definition ReplaceAll (s old new : string) : string :=
  replace_from old new O s.

End strings.

(** ** Go regular expressions

    [regexp] is Go's standard library, not code of this package.  A compiled
    [*regexp.Regexp] is modelled by the one method the package calls:
    [FindStringSubmatch] returns [nil] when the expression does not match and
    otherwise the text of the leftmost match followed by the texts of its
    capture groups.  The text of a match is a piece of the searched string,
    which is all the sanitizer relies on. *)
Record Regexp : Type := {
  FindStringSubmatch : string -> list string;
  FindStringSubmatch_text :
    forall s m groups, FindStringSubmatch s = m :: groups -> Substr m s
}.

(** The longest prefix of [s] without a newline: what a greedy [.+] (or [.*])
    consumes, since [.] matches every character but [\n] (a byte that is not
    valid UTF-8 is read as U+FFFD, which [.] matches too). *)
Fixpoint upto_newline (s : string) : string :=
  match s with
  | EmptyString => EmptyString
  | String c s' => if Ascii.eqb c LF then EmptyString else String c (upto_newline s')
  end.

(** Leftmost match of the expression [lit.+] for a literal [lit]: the first
    offset where [lit] is followed by at least one character other than a
    newline; the match runs to the end of that line.  The expression has no
    capture group, so the result has one element. *)
Fixpoint find_literal_dotplus (lit : string) (s : string) {struct s} : list string :=
  let here :=
    if prefix lit s
    then match upto_newline (drop (String.length lit) s) with
         | EmptyString => None
         | rest => Some (lit ++ rest)
         end
    else None in
  match here with
  | Some m => [m]
  | None => match s with
            | EmptyString => []
            | String _ s' => find_literal_dotplus lit s'
            end
  end.

(** *** The expression of [cleanupTerraformPlan]

    A value of [Regexp] carries the proof that what it finds is a piece of the
    searched string; for [lit.+] that proof needs three facts about byte
    strings, stated here ahead of the others. *)

Lemma app_assoc (a b c : string) : (a ++ b) ++ c = a ++ (b ++ c).
Proof. induction a as [|x a IH]; simpl; [reflexivity | now rewrite IH]. Qed.

Lemma prefix_inv (p s : string) : prefix p s = true -> s = p ++ drop (String.length p) s.
Proof.
  revert s. induction p as [|x p IH]; intros s H; [reflexivity|].
  destruct s as [|y s]; simpl in H; [discriminate|].
  destruct (ascii_dec x y) as [->|]; [|discriminate].
  simpl. f_equal. now apply IH.
Qed.

Lemma upto_newline_prefix (s : string) : exists t, s = upto_newline s ++ t.
Proof.
  induction s as [|c s [t IH]]; simpl.
  - now exists "".
  - destruct (Ascii.eqb c LF).
    + now eexists.
    + exists t. simpl. now rewrite <- IH.
Qed.

Lemma find_literal_dotplus_text (lit s m : string) (groups : list string) :
  find_literal_dotplus lit s = m :: groups -> Substr m s.
Proof.
  induction s as [|c s IH].
  - cbn [find_literal_dotplus].
    destruct (prefix lit "") eqn:P; [|discriminate].
    destruct lit; [discriminate | simpl in P; discriminate].
  - cbn [find_literal_dotplus].
    destruct (prefix lit (String c s)) eqn:P.
    + destruct (upto_newline (drop (String.length lit) (String c s))) as [|x r] eqn:U.
      * intros H. destruct (IH H) as (pre & post & ->).
        now exists (String c pre), post.
      * intros [= <- _]. apply prefix_inv in P.
        destruct (upto_newline_prefix (drop (String.length lit) (String c s))) as [t Ht].
        rewrite U in Ht. exists "", t. simpl. rewrite app_assoc, <- Ht. exact P.
    + intros H. destruct (IH H) as (pre & post & ->).
      now exists (String c pre), post.
Qed.

(** The compiled expression [lit.+]. *)
Definition literal_dotplus (lit : string) : Regexp :=
  {| FindStringSubmatch := find_literal_dotplus lit;
     FindStringSubmatch_text := find_literal_dotplus_text lit |}.

(** ** The output sanitizer *)

(** A Go [error] value is modelled by its message, [err.Error()]; [nil] is
    [None]. *)
Definition error : Type := string.

Notation "x <- e ;; k" :=
  (match e with Some x => k | None => None end)
  (at level 100, e at next level, right associativity, only parsing).

(** The text Terraform prints when it starts; what precedes it is the output
    of [terraform -version]. *)
Definition backendMarker : string := "Initializing the backend...".
Definition changesAnchor : string := "Terraform will perform the following actions:".
Definition noChangesAnchor : string :=
  "No changes. Your infrastructure matches the configuration.".

(** [cleanupTerraformOutput].  [regexStr] is the optional trailing pattern,
    taken here as compiled: [regexp.MustCompile] panics on a string that is
    not a regular expression, and the two callers pass [nil] or a constant
    that compiles.  The result is [None] when a slice expression panics. *)
Definition cleanupTerraformOutput (nonEmptyOutput : bool) (planError : option error)
    (stdout stderr : string) (regexStr : option Regexp) : option string :=
  let i := strings.Index stdout backendMarker in
  stdout <- (if negb (i =? -1) then slice stdout i (len stdout) else Some stdout) ;;
  let endPos := len stdout in
  match planError with
  | Some _ =>
      let errorStr :=
        if negb (stderr =? "")%string then stderr
        else if negb (stdout =? "")%string then stdout
        else "" in
      Some errorStr
  | None =>
      let start := if nonEmptyOutput then changesAnchor else noChangesAnchor in
      let startPos := strings.Index stdout start in
      let startPos := if startPos =? -1 then 0 else startPos in
      let endPos :=
        match regexStr with
        | Some regex =>
            match FindStringSubmatch regex stdout with
            | firstMatch :: _ => strings.LastIndex stdout firstMatch + len firstMatch
            | [] => endPos
            end
        | None => endPos
        end in
      let endPos := if endPos <=? startPos then len stdout else endPos in
      slice stdout startPos endPos
  end.

Definition cleanupTerraformApply (nonEmptyPlan : bool) (planError : option error)
    (stdout stderr : string) : option string :=
  cleanupTerraformOutput nonEmptyPlan planError stdout stderr None.

(** The literal part of the pattern of [cleanupTerraformPlan]: eleven
    box-drawing dashes (U+2500, three bytes each). *)
Definition planRule : string := "───────────".

(** The pattern is [planRule] followed by [.+]. *)
Definition cleanupTerraformPlan (nonEmptyPlan : bool) (planError : option error)
    (stdout stderr : string) : option string :=
  let regex := literal_dotplus planRule in
  cleanupTerraformOutput nonEmptyPlan planError stdout stderr (Some regex).

(** ** Plan file names and paths *)

Module path.

(** The elements of a slash-separated path; [cur] collects the bytes of the
    element being read, in reverse. *)
Fixpoint split_from (cur : list ascii) (s : string) : list string :=
  match s with
  | EmptyString => [string_of_list_ascii (rev cur)]
  | String c s' =>
      if Ascii.eqb c "/"%char
      then string_of_list_ascii (rev cur) :: split_from [] s'
      else split_from (c :: cur) s'
  end.

Definition elements (s : string) : list string := split_from [] s.

(** The elements [Clean] keeps, as a stack with the last element on top:
    empty elements and [.] are dropped, [..] removes the element before it
    when there is one that is not [..] itself, is dropped at the root of a
    rooted path, and is kept otherwise. *)
Fixpoint clean_elements (rooted : bool) (kept : list string) (es : list string)
    : list string :=
  match es with
  | [] => rev kept
  | e :: es' =>
      if (e =? "")%string || (e =? ".")%string then clean_elements rooted kept es'
      else if (e =? "..")%string then
        match kept with
        | top :: below =>
            if (top =? "..")%string
            then clean_elements rooted (e :: kept) es'
            else clean_elements rooted below es'
        | [] =>
            if rooted then clean_elements rooted kept es'
            else clean_elements rooted (e :: kept) es'
        end
      else clean_elements rooted (e :: kept) es'
  end.

(** [path.Clean]: the shortest path equivalent to [p] by lexical processing;
    the empty path becomes [.]. *)
Definition Clean (p : string) : string :=
  match p with
  | EmptyString => "."
  | String c _ =>
      let rooted := Ascii.eqb c "/"%char in
      let out := String.concat "/" (clean_elements rooted [] (elements p)) in
      if rooted then "/" ++ out
      else if (out =? "")%string then "." else out
  end.

(** [path.Join]: the non-empty elements joined by slashes and cleaned; the
    empty string when there is none. *)
Definition Join (elem : list string) : string :=
  match filter (fun e => negb (e =? "")%string) elem with
  | [] => ""
  | es => Clean (String.concat "/" es)
  end.

End path.

(** [PlanPathProvider]: the interface the executor derives the plan file's
    name and paths through.  Its methods take no argument and return a
    string. *)
Module PlanPathProvider.

Record t : Type := {
  LocalPlanFilePath : string;
  StoredPlanFilePath : string;
  PlanFileName : string
}.

End PlanPathProvider.

(** [ProjectPathProvider], the implementation of [PlanPathProvider]. *)
Module ProjectPathProvider.

Record t : Type := {
  ProjectPath : string;
  ProjectNamespace : string;
  ProjectName : string
}.

Definition PlanFileName (d : t) : string :=
  strings.ReplaceAll (ProjectNamespace d) "/" ":" ++ "#" ++ ProjectName d ++ ".tfplan".

Definition LocalPlanFilePath (d : t) : string :=
  path.Join [ProjectPath d; PlanFileName d].

Definition StoredPlanFilePath (d : t) : string :=
  path.Join [ProjectNamespace d; PlanFileName d].

(** The provider as a value of the interface. *)
Definition provider (d : t) : PlanPathProvider.t :=
  {| PlanPathProvider.LocalPlanFilePath := LocalPlanFilePath d;
     PlanPathProvider.StoredPlanFilePath := StoredPlanFilePath d;
     PlanPathProvider.PlanFileName := PlanFileName d |}.

End ProjectPathProvider.

(** ** The collaborators of the executor

    The packages [models], [utils], [terraform], [runners], [reporting],
    [storage] and [locking] are not part of the sources at hand; their types
    are taken from the calls [execution.go] makes and from the contracts of
    the design's external interfaces. *)

(** An environment overlay, [map[string]string]; the executor only hands it
    on. *)
Definition EnvVars : Type := list (string * string).

Module models.

(** Modelled from the spec: [models.Step] and [models.Stage], whose
    declarations are missing; a step has an action, extra arguments, a command
    body and a shell, a stage is an ordered sequence of steps. *)
Record Step : Type := {
  Action : string;
  ExtraArgs : list string;
  Value : string;
  Shell : string
}.

Record Stage : Type := { Steps : list Step }.

(** The composite literal [models.Step{Action: a}]. *)
Definition action (a : string) : Step :=
  {| Action := a; ExtraArgs := []; Value := ""; Shell := "" |}.

End models.

Module utils.

(** Modelled from the spec: the two comment formatters of [utils], whose code
    is missing; each wraps content as a labelled collapsible block and is
    kept here as the label it was built with. *)
Inductive Formatter : Type :=
| GetTerraformOutputAsCollapsibleComment (summary : string)
| AsCollapsibleComment (summary : string).

End utils.

(** Which of the two entry points of the sanitizer was called. *)
Inductive CleanupMode : Type := CleanupPlan | CleanupApply.

(** What the executor does to the outside, in order: every call of a
    collaborator with its arguments and what it returned, and every line
    written with [fmt.Printf] or [log.Printf].  [Sanitize] marks a call of the
    sanitizer: it has no effect, and is recorded so that one can say when and
    with which arguments the sanitizer is called. *)
Inductive Event : Type :=
| CallLock (acquired : bool) (err : option error)
| CallForceUnlock (err : option error)
| CallLockId (id : string)
| CallInit (args : list string) (envs : EnvVars) (err : option error)
| CallPlan (args : list string) (envs : EnvVars)
    (result : bool * string * string * option error)
| CallApply (args : list string) (plansFilename : option string) (envs : EnvVars)
    (result : string * string * option error)
| CallRun (workingDir shell : string) (commands : list string) (err : option error)
| CallPlanExists (storedPlanFilePath : string) (result : bool * option error)
| CallDeleteStoredPlan (storedPlanFilePath : string) (err : option error)
| CallStorePlan (localPlanFilePath storedPlanFilePath : string) (err : option error)
| CallRetrievePlan (localPlanFilePath storedPlanFilePath : string)
    (result : option string * option error)
| CallReport (content : string) (formatter : utils.Formatter) (err : option error)
| Sanitize (mode : CleanupMode) (nonEmpty : bool) (err : option error)
    (stdout stderr : string)
| Printed (text : string)
| Logged (text : string).

(** The process environment: [os.Getenv], which gives the empty string for a
    variable that is not set. *)
Definition Env : Type := string -> string.

(** *** Statements

    A statement runs in the process environment and the state [S] of the
    collaborators; it ends by going on to the next statement with a value, by
    a [return] of the enclosing function, or by a panic, and leaves the new
    state and the events it caused. *)
Inductive outcome (R A : Type) : Type :=
| Next (a : A)
| Returned (r : R)
| Panic.

Arguments Next {R A} a.
Arguments Returned {R A} r.
Arguments Panic {R A}.

Definition Exec (S R A : Type) : Type := Env -> S -> outcome R A * S * list Event.

(** A function that was called: its results ([None] when it panicked), the
    new state and the events. *)
Definition Called (S R : Type) : Type := Env -> S -> option R * S * list Event.

Section Statements.

Context {S R : Type}.

Definition next {A : Type} (a : A) : Exec S R A :=
  fun _ s => (Next a, s, []).

Definition returns {A : Type} (r : R) : Exec S R A :=
  fun _ s => (Returned r, s, []).

Definition bind {A B : Type} (m : Exec S R A) (k : A -> Exec S R B) : Exec S R B :=
  fun env s =>
    match m env s with
    | (Next a, s1, t1) =>
        let '(o, s2, t2) := k a env s1 in (o, s2, (t1 ++ t2)%list)
    | (Returned r, s1, t1) => (Returned r, s1, t1)
    | (Panic, s1, t1) => (Panic, s1, t1)
    end.

(** A call of a collaborator's method. *)
Definition call {A : Type} (op : S -> A * S) (ev : A -> Event) : Exec S R A :=
  fun _ s => let (a, s') := op s in (Next a, s', [ev a]).

Definition emit (e : Event) : Exec S R unit :=
  fun _ s => (Next tt, s, [e]).

Definition getenv (key : string) : Exec S R string :=
  fun env s => (Next (env key), s, []).

(** The value of an expression that may panic. *)
Definition must {A : Type} (o : option A) : Exec S R A :=
  fun _ s => match o with Some a => (Next a, s, []) | None => (Panic, s, []) end.

(** [return f()]: the results of the called function are returned. *)
Definition return_call {A : Type} (f : Called S R) : Exec S R A :=
  fun env s =>
    match f env s with
    | (Some r, s', t) => (Returned r, s', t)
    | (None, s', t) => (Panic, s', t)
    end.

(** A function body, as the function seen by its caller. *)
Definition func (body : Exec S R R) : Called S R :=
  fun env s =>
    match body env s with
    | (Next r, s', t) | (Returned r, s', t) => (Some r, s', t)
    | (Panic, s', t) => (None, s', t)
    end.

End Statements.

Notation "x <~ e ;; k" := (bind e (fun x => k))
  (at level 100, e at next level, right associativity, only parsing).
Notation "e ;;; k" := (bind e (fun _ => k))
  (at level 100, right associativity, only parsing).

(** [%v] of an error and [%t] of a boolean, as [fmt] prints them. *)
Definition fmt_v (err : option error) : string :=
  match err with Some e => e | None => "<nil>" end.

Definition fmt_t (b : bool) : string := if b then "true" else "false".

Module terraform.

(** Modelled from the spec: the tool runner, whose declaration is missing:
    [Init(args, envs)], [Plan(args, envs)] and [Apply(args, plan, envs)]. *)
Record TerraformExecutor (S : Type) : Type := {
  Init : list string -> EnvVars -> S -> (string * string * option error) * S;
  Plan : list string -> EnvVars -> S -> (bool * string * string * option error) * S;
  Apply : list string -> option string -> EnvVars -> S ->
          (string * string * option error) * S
}.

Arguments Init {S}.
Arguments Plan {S}.
Arguments Apply {S}.

End terraform.

Module runners.

(** Modelled from the spec: the command runner, whose declaration is
    missing: [Run(workingDir, shell, commands)]. *)
Record CommandRun (S : Type) : Type := {
  Run : string -> string -> list string -> S -> (string * string * option error) * S
}.

Arguments Run {S}.

End runners.

Module reporting.

(** Modelled from the spec: the reporter, whose declaration is missing:
    [Report(content, formatter)]. *)
Record Reporter (S : Type) : Type := {
  Report : string -> utils.Formatter -> S -> option error * S
}.

Arguments Report {S}.

End reporting.

Module storage.

(** Modelled from the spec: the artifact store, whose declaration is
    missing. *)
Record PlanStorage (S : Type) : Type := {
  PlanExists : string -> S -> (bool * option error) * S;
  DeleteStoredPlan : string -> S -> option error * S;
  StorePlan : string -> string -> S -> option error * S;
  RetrievePlan : string -> string -> S -> (option string * option error) * S
}.

Arguments PlanExists {S}.
Arguments DeleteStoredPlan {S}.
Arguments StorePlan {S}.
Arguments RetrievePlan {S}.

End storage.

Module locking.

(** Modelled from the spec: the project lock, whose declaration is missing:
    [Lock()], [ForceUnlock()] and [LockId()]. *)
Record ProjectLock (S : Type) : Type := {
  Lock : S -> (bool * option error) * S;
  ForceUnlock : S -> option error * S;
  LockId : S -> string * S
}.

Arguments Lock {S}.
Arguments ForceUnlock {S}.
Arguments LockId {S}.

End locking.

(** ** The executors *)

(** What [Plan] and [Apply] return. *)
Definition PlanResult : Type := bool * string * option error.
Definition ApplyResult : Type := bool * option error.

Module Executor.

(** The interface [Executor]. *)
Record t (S : Type) : Type := {
  Plan : Called S PlanResult;
  Apply : Called S ApplyResult
}.

Arguments Plan {S}.
Arguments Apply {S}.

End Executor.

Module LockingExecutorWrapper.

Record t (S : Type) : Type := {
  ProjectLock : locking.ProjectLock S;
  Executor : Executor.t S
}.

Arguments ProjectLock {S}.
Arguments Executor {S}.

Section Methods.

Context {S : Type}.

Definition Plan (l : t S) : Called S PlanResult :=
  func (
    let plan := "" in
    r <~ call (locking.Lock (ProjectLock l)) (fun r => CallLock (fst r) (snd r)) ;;
    let (locked, err) := r in
    match err with
    | Some e => returns (false, "", Some ("error locking project: " ++ e))
    | None =>
        emit (Logged ("Lock result: " ++ fmt_t locked ++ nl)) ;;;
        if locked
        then return_call (Executor.Plan (Executor l))
        else returns (false, plan, None)
    end).

Definition Apply (l : t S) : Called S ApplyResult :=
  func (
    r <~ call (locking.Lock (ProjectLock l)) (fun r => CallLock (fst r) (snd r)) ;;
    let (locked, err) := r in
    match err with
    | Some e => returns (false, Some ("error locking project: " ++ e))
    | None =>
        emit (Logged ("Lock result: " ++ fmt_t locked ++ nl)) ;;;
        if locked
        then return_call (Executor.Apply (Executor l))
        else returns (false, None)
    end).

Definition Unlock (l : t S) : Called S (option error) :=
  func (
    err <~ call (locking.ForceUnlock (ProjectLock l)) CallForceUnlock ;;
    match err with
    | Some e =>
        id <~ call (locking.LockId (ProjectLock l)) CallLockId ;;
        returns (Some ("failed to aquire lock: " ++ id ++ ", " ++ e))
    | None => returns None
    end).

Definition Lock (l : t S) : Called S (option error) :=
  func (
    r <~ call (locking.Lock (ProjectLock l)) (fun r => CallLock (fst r) (snd r)) ;;
    let (_, err) := r in
    match err with
    | Some e =>
        id <~ call (locking.LockId (ProjectLock l)) CallLockId ;;
        returns (Some ("failed to aquire lock: " ++ id ++ ", " ++ e))
    | None => returns None
    end).

End Methods.

End LockingExecutorWrapper.

Module DiggerExecutor.

(** The struct [DiggerExecutor].  The two stages and the plan storage may be
    [nil]; the other collaborators are taken to be there (a call through a
    [nil] interface would panic). *)
Record t (S : Type) : Type := {
  ProjectNamespace : string;
  ProjectName : string;
  ProjectPath : string;
  StateEnvVars : EnvVars;
  CommandEnvVars : EnvVars;
  ApplyStage : option models.Stage;
  PlanStage : option models.Stage;
  CommandRunner : runners.CommandRun S;
  TerraformExecutor : terraform.TerraformExecutor S;
  Reporter : reporting.Reporter S;
  PlanStorage : option (storage.PlanStorage S);
  PlanPathProvider : PlanPathProvider.t
}.

Arguments ProjectNamespace {S}.
Arguments ProjectName {S}.
Arguments ProjectPath {S}.
Arguments StateEnvVars {S}.
Arguments CommandEnvVars {S}.
Arguments ApplyStage {S}.
Arguments PlanStage {S}.
Arguments CommandRunner {S}.
Arguments TerraformExecutor {S}.
Arguments Reporter {S}.
Arguments PlanStorage {S}.
Arguments PlanPathProvider {S}.

Section Methods.

Context {S : Type}.

(** The steps [Plan] runs: those of the stage, or [init] and [plan]. *)
Definition planSteps (d : t S) : list models.Step :=
  match PlanStage d with
  | Some stage => models.Steps stage
  | None => [models.action "init"; models.action "plan"]
  end.

(** The body of the loop of [Plan] for one step; [plan] is the variable of
    that name, and the value returned is its value after the step. *)
Definition planStep (d : t S) (step : models.Step) (plan : string)
    : Exec S PlanResult string :=
  (if (models.Action step =? "init")%string then
     r <~ call (terraform.Init (TerraformExecutor d) (models.ExtraArgs step) (StateEnvVars d))
            (fun r => CallInit (models.ExtraArgs step) (StateEnvVars d) (snd r)) ;;
     match snd r with
     | Some err => returns (false, "", Some ("error running init: " ++ err))
     | None => next tt
     end
   else next tt) ;;;
  plan <~
    (if (models.Action step =? "plan")%string then
       let planArgs := ["-out"; PlanPathProvider.PlanFileName (PlanPathProvider d)] in
       let planArgs := (planArgs ++ models.ExtraArgs step)%list in
       r <~ call (terraform.Plan (TerraformExecutor d) planArgs (CommandEnvVars d))
              (CallPlan planArgs (CommandEnvVars d)) ;;
       let '(isNonEmptyPlan, stdout, stderr, err) := r in
       match err with
       | Some e => returns (false, "", Some ("error executing plan: " ++ e))
       | None => next tt
       end ;;;
       match PlanStorage d with
       | Some planStorage =>
           let stored := PlanPathProvider.StoredPlanFilePath (PlanPathProvider d) in
           let local := PlanPathProvider.LocalPlanFilePath (PlanPathProvider d) in
           r <~ call (storage.PlanExists planStorage stored) (CallPlanExists stored) ;;
           let (planExists, err) := r in
           match err with
           | Some e => returns (false, "", Some ("error checking if plan exists: " ++ e))
           | None => next tt
           end ;;;
           (if planExists then
              err <~ call (storage.DeleteStoredPlan planStorage stored)
                       (CallDeleteStoredPlan stored) ;;
              match err with
              | Some e => returns (false, "", Some ("error deleting plan: " ++ e))
              | None => next tt
              end
            else next tt) ;;;
           err <~ call (storage.StorePlan planStorage local stored)
                    (CallStorePlan local stored) ;;
           match err with
           | Some e => returns (false, "", Some ("error storing plan: " ++ e))
           | None => next tt
           end
       | None => next tt
       end ;;;
       emit (Sanitize CleanupPlan isNonEmptyPlan err stdout stderr) ;;;
       plan <~ must (cleanupTerraformPlan isNonEmptyPlan err stdout stderr) ;;
       match err with
       | Some _ => emit (Printed ("error publishing comment: " ++ fmt_v err))
       | None => next tt
       end ;;;
       next plan
     else next plan) ;;
  (if (models.Action step =? "run")%string then
     let commands := [] in
     commands <~
       (activate <~ getenv "ACTIVATE_VENV" ;;
        if (activate =? "true")%string then
          workspace <~ getenv "GITHUB_WORKSPACE" ;;
          let line := "source " ++ workspace ++ "/.venv/bin/activate" in
          next (commands ++ [line])%list
        else next commands) ;;
     let commands := (commands ++ [models.Value step])%list in
     emit (Logged ("Running " ++ models.Value step ++ " for **"
                   ++ (ProjectNamespace d ++ "#" ++ ProjectName d) ++ "**" ++ nl)) ;;;
     r <~ call (runners.Run (CommandRunner d) (ProjectPath d) (models.Shell step) commands)
            (fun r => CallRun (ProjectPath d) (models.Shell step) commands (snd r)) ;;
     match snd r with
     | Some err => returns (false, "", Some ("error running command: " ++ err))
     | None => next tt
     end
   else next tt) ;;;
  next plan.

(** [for _, step := range planSteps]. *)
Fixpoint planLoop (d : t S) (steps : list models.Step) (plan : string)
    : Exec S PlanResult string :=
  match steps with
  | [] => next plan
  | step :: rest => plan <~ planStep d step plan ;; planLoop d rest plan
  end.

Definition Plan (d : t S) : Called S PlanResult :=
  func (
    let plan := "" in
    plan <~ planLoop d (planSteps d) plan ;;
    returns (true, plan, None)).

(** The steps [Apply] runs: those of the stage, or [init] and [apply]. *)
Definition applySteps (d : t S) : list models.Step :=
  match ApplyStage d with
  | Some stage => models.Steps stage
  | None => [models.action "init"; models.action "apply"]
  end.

(** The start of [Apply]: the stored plan is fetched when there is a
    storage. *)
Definition retrievePlan (d : t S) : Exec S ApplyResult (option string) :=
  match PlanStorage d with
  | Some planStorage =>
      let stored := PlanPathProvider.StoredPlanFilePath (PlanPathProvider d) in
      let local := PlanPathProvider.LocalPlanFilePath (PlanPathProvider d) in
      r <~ call (storage.RetrievePlan planStorage local stored)
             (CallRetrievePlan local stored) ;;
      let (plansFilename, err) := r in
      match err with
      | Some e => returns (false, Some ("error retrieving plan: " ++ e))
      | None => next plansFilename
      end
  | None => next None
  end.

(** The body of the loop of [Apply] for one step. *)
Definition applyStep (d : t S) (plansFilename : option string) (step : models.Step)
    : Exec S ApplyResult unit :=
  (if (models.Action step =? "init")%string then
     r <~ call (terraform.Init (TerraformExecutor d) (models.ExtraArgs step) (StateEnvVars d))
            (fun r => CallInit (models.ExtraArgs step) (StateEnvVars d) (snd r)) ;;
     match snd r with
     | Some err => returns (false, Some ("error running init: " ++ err))
     | None => next tt
     end
   else next tt) ;;;
  (if (models.Action step =? "apply")%string then
     r <~ call (terraform.Apply (TerraformExecutor d) (models.ExtraArgs step)
                  plansFilename (CommandEnvVars d))
            (CallApply (models.ExtraArgs step) plansFilename (CommandEnvVars d)) ;;
     let '(stdout, stderr, err) := r in
     emit (Sanitize CleanupApply true err stdout stderr) ;;;
     applyOutput <~ must (cleanupTerraformApply true err stdout stderr) ;;
     let formatter :=
       utils.GetTerraformOutputAsCollapsibleComment
         ("Apply for <b>" ++ ProjectNamespace d ++ "#" ++ ProjectName d ++ "</b>") in
     commentErr <~ call (reporting.Report (Reporter d) applyOutput formatter)
                     (CallReport applyOutput formatter) ;;
     match commentErr with
     | Some _ => emit (Printed ("error publishing comment: " ++ fmt_v err))
     | None => next tt
     end ;;;
     match err with
     | Some e =>
         let formatter := utils.AsCollapsibleComment "Error during applying." in
         commentErr <~ call (reporting.Report (Reporter d) e formatter)
                         (CallReport e formatter) ;;
         match commentErr with
         | Some _ => emit (Printed ("error publishing comment: " ++ fmt_v err))
         | None => next tt
         end ;;;
         returns (false, Some ("error executing apply: " ++ e))
     | None => next tt
     end
   else next tt) ;;;
  (if (models.Action step =? "run")%string then
     let commands := [] in
     commands <~
       (activate <~ getenv "ACTIVATE_VENV" ;;
        if (activate =? "true")%string then
          let line := "source " ++ ProjectPath d ++ "/.venv/bin/activate" in
          next (commands ++ [line])%list
        else next commands) ;;
     let commands := (commands ++ [models.Value step])%list in
     emit (Logged ("Running " ++ models.Value step ++ " for **"
                   ++ (ProjectNamespace d ++ "#" ++ ProjectName d) ++ "**" ++ nl)) ;;;
     r <~ call (runners.Run (CommandRunner d) (ProjectPath d) (models.Shell step) commands)
            (fun r => CallRun (ProjectPath d) (models.Shell step) commands (snd r)) ;;
     match snd r with
     | Some err => returns (false, Some ("error running command: " ++ err))
     | None => next tt
     end
   else next tt).

(** [for _, step := range applySteps]. *)
Fixpoint applyLoop (d : t S) (plansFilename : option string) (steps : list models.Step)
    : Exec S ApplyResult unit :=
  match steps with
  | [] => next tt
  | step :: rest => applyStep d plansFilename step ;;; applyLoop d plansFilename rest
  end.

Definition Apply (d : t S) : Called S ApplyResult :=
  func (
    plansFilename <~ retrievePlan d ;;
    applyLoop d plansFilename (applySteps d) ;;;
    returns (true, None)).

(** A [DiggerExecutor] as a value of the interface [Executor]. *)
Definition executor (d : t S) : Executor.t S :=
  {| Executor.Plan := Plan d; Executor.Apply := Apply d |}.

End Methods.

End DiggerExecutor.

(** * Vocabulary of the statements

    Definitions the code does not have: names for what its functions compute
    on the way, and readings of strings, paths and events, used to state the
    theorems. *)

(** ** The positions the sanitizer computes

    Names for the intermediate values of [cleanupTerraformOutput], used to
    state what it returns. *)

(** [stdout] after step 1: from the first marker on, or all of it. *)
Definition afterMarker (stdout : string) : string :=
  match strings.index_nat backendMarker stdout with
  | Some n => drop n stdout
  | None => stdout
  end.

Definition startAnchor (nonEmptyOutput : bool) : string :=
  if nonEmptyOutput then changesAnchor else noChangesAnchor.

(** [startPos]: the first anchor, or [0]. *)
Definition startPosOf (nonEmptyOutput : bool) (s : string) : Z :=
  let p := strings.Index s (startAnchor nonEmptyOutput) in
  if p =? -1 then 0 else p.

(** [endPos] before the guard. *)
Definition endPosOf (regexStr : option Regexp) (s : string) : Z :=
  match regexStr with
  | Some regex =>
      match FindStringSubmatch regex s with
      | firstMatch :: _ => strings.LastIndex s firstMatch + len firstMatch
      | [] => len s
      end
  | None => len s
  end.

(** [endPos] after the guard. *)
Definition guardedEnd (startPos endPos : Z) (s : string) : Z :=
  if endPos <=? startPos then len s else endPos.

(** All the matches of [lit.+] in [s], left to right and without overlap
    (what [FindAllStringIndex] gives), each as offset and text.  [skip] counts
    the bytes of the previous match still to be passed over, [pos] is the
    offset of [s] in the whole string.  The sanitizer does not call this: it
    serves to say which match is the last one. *)
Fixpoint all_literal_dotplus (lit : string) (skip pos : nat) (s : string)
    {struct s} : list (nat * string) :=
  match s with
  | EmptyString => []
  | String _ s' =>
      match skip with
      | S k => all_literal_dotplus lit k (S pos) s'
      | O =>
          let here :=
            if prefix lit s
            then match upto_newline (drop (String.length lit) s) with
                 | EmptyString => None
                 | rest => Some (lit ++ rest)
                 end
            else None in
          match here with
          | Some m => (pos, m) :: all_literal_dotplus lit (Nat.pred (String.length m)) (S pos) s'
          | None => all_literal_dotplus lit O (S pos) s'
          end
      end
  end.

Definition planRuleMatches (s : string) : list (nat * string) :=
  all_literal_dotplus planRule O O s.

(** [r] is the piece of [s] that stops at offset [e]. *)
Definition EndsAt (r s : string) (e : nat) : Prop :=
  (String.length r <= e)%nat /\ drop (e - String.length r) (take e s) = r.

(** [s] with [f] applied to every byte. *)
Fixpoint map_bytes (f : ascii -> ascii) (s : string) : string :=
  match s with
  | EmptyString => EmptyString
  | String c s' => String (f c) (map_bytes f s')
  end.

(** The byte [c] occurs in [s]. *)
Fixpoint has_byte (c : ascii) (s : string) : bool :=
  match s with
  | EmptyString => false
  | String x s' => Ascii.eqb x c || has_byte c s'
  end.

Definition slash_to_colon (c : ascii) : ascii :=
  if Ascii.eqb c "/"%char then ":"%char else c.

(** The text after the last slash. *)
Definition basename (s : string) : string := last (path.elements s) "".

(** An element that [path.Clean] keeps as it is. *)
Definition plain_element (f : string) : Prop :=
  has_byte "/" f = false /\ f <> "" /\ f <> "." /\ f <> "..".

(** The namespace and name of an identity. *)
Definition identity (d : ProjectPathProvider.t) : string * string :=
  (ProjectPathProvider.ProjectNamespace d, ProjectPathProvider.ProjectName d).

(** The line printed when a report could not be delivered: none when it
    was. *)
Definition printedIfFailed (commentErr err : option error) : list Event :=
  match commentErr with
  | Some _ => [Printed ("error publishing comment: " ++ fmt_v err)]
  | None => []
  end.

(** The reports among the events: content and formatter of each, in order. *)
Fixpoint reports (t : list Event) : list (string * utils.Formatter) :=
  match t with
  | [] => []
  | CallReport content formatter _ :: rest => (content, formatter) :: reports rest
  | _ :: rest => reports rest
  end.

(** The answer of the tool to the last [Plan] call among the events. *)
Fixpoint lastPlanCall (t : list Event) : option (bool * string * string * option error) :=
  match t with
  | [] => None
  | ev :: rest =>
      match lastPlanCall rest with
      | Some r => Some r
      | None => match ev with CallPlan _ _ r => Some r | _ => None end
      end
  end.

(** The event is not a call of the sanitizer with an error. *)
Definition sanitized_without_error (ev : Event) : Prop :=
  match ev with
  | Sanitize _ _ (Some _) _ _ => False
  | _ => True
  end.

(** The action is none of those [Plan] knows. *)
Definition unknown_to_Plan (step : models.Step) : Prop :=
  models.Action step <> "init" /\ models.Action step <> "plan" /\
  models.Action step <> "run".

(** A path made of plain elements only: relative, without [.] or [..], without
    doubled or trailing slash. *)
Definition clean_relative (p : string) : Prop :=
  Forall plain_element (path.elements p).

(** The executor has a plan storage. *)
Definition has_storage {S : Type} (d : DiggerExecutor.t S) : bool :=
  match DiggerExecutor.PlanStorage d with Some _ => true | None => false end.

(** The tool calls of the event are made the way the executor [d] makes them:
    [Init] with the state overlay, [Plan] and [Apply] with the command
    overlay, [Plan] with [-out] and the plan file name before any other
    argument. *)
Definition uses_overlays {S : Type} (d : DiggerExecutor.t S) (ev : Event) : Prop :=
  match ev with
  | CallInit _ envs _ => envs = DiggerExecutor.StateEnvVars d
  | CallPlan args envs _ =>
      envs = DiggerExecutor.CommandEnvVars d /\
      exists extra,
        args = "-out" :: PlanPathProvider.PlanFileName (DiggerExecutor.PlanPathProvider d)
               :: extra
  | CallApply _ _ envs _ => envs = DiggerExecutor.CommandEnvVars d
  | _ => True
  end.

(** An event of the kinds the plan stage causes; the storage calls only with a
    storage. *)
Definition plan_event (storage : bool) (ev : Event) : Prop :=
  match ev with
  | CallInit _ _ _ | CallPlan _ _ _ | CallRun _ _ _ _
  | Sanitize CleanupPlan _ _ _ _ | Printed _ | Logged _ => True
  | CallPlanExists _ _ | CallDeleteStoredPlan _ _ | CallStorePlan _ _ _ => storage = true
  | _ => False
  end.

(** An event of the kinds the steps of the apply stage cause. *)
Definition apply_event (ev : Event) : Prop :=
  match ev with
  | CallInit _ _ _ | CallApply _ _ _ _ | CallRun _ _ _ _ | CallReport _ _ _
  | Sanitize CleanupApply _ _ _ _ | Printed _ | Logged _ => True
  | _ => False
  end.

(** If the event is a call of the tool's [Apply], it was given the plan file
    [plansFilename]. *)
Definition applies_file (plansFilename : option string) (ev : Event) : Prop :=
  match ev with
  | CallApply _ file _ _ => file = plansFilename
  | _ => True
  end.

(** The event is a call that failed, and [r] is what [Plan] returns for it:
    [false], no plan text, and the error of the call under the name of the
    operation. *)
Definition explains_abort (ev : Event) (r : PlanResult) : Prop :=
  match ev with
  | CallInit _ _ (Some e) => r = (false, "", Some ("error running init: " ++ e))
  | CallPlan _ _ (_, _, _, Some e) => r = (false, "", Some ("error executing plan: " ++ e))
  | CallPlanExists _ (_, Some e) =>
      r = (false, "", Some ("error checking if plan exists: " ++ e))
  | CallDeleteStoredPlan _ (Some e) => r = (false, "", Some ("error deleting plan: " ++ e))
  | CallStorePlan _ _ (Some e) => r = (false, "", Some ("error storing plan: " ++ e))
  | CallRun _ _ _ (Some e) => r = (false, "", Some ("error running command: " ++ e))
  | _ => False
  end.

(** The action is none of those [Apply] knows. *)
Definition unknown_to_Apply (step : models.Step) : Prop :=
  models.Action step <> "init" /\ models.Action step <> "apply" /\
  models.Action step <> "run".

(** * Concrete inputs

    The inputs at which theorems are instantiated and counterexamples
    evaluated. *)

(** A plan whose output holds two rule lines, the first one longer. *)
Definition planTwoRules : string :=
  changesAnchor ++ nl ++ "  + thing" ++ nl ++
  "────────────────" ++ nl ++ "Plan: 1 to add." ++ nl ++
  "─────────────" ++ nl ++ "Note: not saved.".

(** A plan whose only rule line stands before the anchor. *)
Definition planRuleFirst : string :=
  "─────────────" ++ nl ++ changesAnchor ++ nl ++ "  + thing".

(** A plan with one rule line, after the anchor. *)
Definition planOneRule : string :=
  changesAnchor ++ nl ++ "  + thing" ++ nl ++ "─────────────" ++ nl ++ "Note.".

(** What the sanitizer makes of [planOneRule] in plan mode. *)
Definition planOneRuleClean : string :=
  changesAnchor ++ nl ++ "  + thing" ++ nl ++ "─────────────".


Definition orgRepoProd : ProjectPathProvider.t :=
  {| ProjectPathProvider.ProjectPath := "dev";
     ProjectPathProvider.ProjectNamespace := "org/repo";
     ProjectPathProvider.ProjectName := "prod" |}.

(** The same name under a namespace spelt with a colon. *)
Definition orgColonRepoProd : ProjectPathProvider.t :=
  {| ProjectPathProvider.ProjectPath := "dev";
     ProjectPathProvider.ProjectNamespace := "org:repo";
     ProjectPathProvider.ProjectName := "prod" |}.

(** The same namespace with a name that steps back over a path element. *)
Definition orgRepoDotDot : ProjectPathProvider.t :=
  {| ProjectPathProvider.ProjectPath := "dev";
     ProjectPathProvider.ProjectNamespace := "org/repo";
     ProjectPathProvider.ProjectName := "x/../org:repo#prod" |}.

Definition orgRepoStaging : ProjectPathProvider.t :=
  {| ProjectPathProvider.ProjectPath := "dev";
     ProjectPathProvider.ProjectNamespace := "org/repo";
     ProjectPathProvider.ProjectName := "staging" |}.

(** ** Collaborators that answer the same on every call

    Used to run the executors on concrete inputs; their state is [unit]. *)

Definition fixedTerraform (initErr : option error)
    (planResult : bool * string * string * option error)
    (applyResult : string * string * option error) : terraform.TerraformExecutor unit :=
  {| terraform.Init := fun _ _ s => (("", "", initErr), s);
     terraform.Plan := fun _ _ s => (planResult, s);
     terraform.Apply := fun _ _ _ s => (applyResult, s) |}.

Definition fixedRunner (err : option error) : runners.CommandRun unit :=
  {| runners.Run := fun _ _ _ s => (("", "", err), s) |}.

Definition fixedReporter (err : option error) : reporting.Reporter unit :=
  {| reporting.Report := fun _ _ s => (err, s) |}.

Definition fixedLock (acquired : bool) (err : option error) : locking.ProjectLock unit :=
  {| locking.Lock := fun s => ((acquired, err), s);
     locking.ForceUnlock := fun s => (None, s);
     locking.LockId := fun s => ("org/repo#prod", s) |}.

(** The process environment given by a list of settings. *)
Fixpoint environ (settings : list (string * string)) : Env :=
  fun key =>
    match settings with
    | [] => ""
    | (k, v) :: rest => if (k =? key)%string then v else environ rest key
    end.

(** The executor of project [prod] of [org/repo] in directory [dev], without
    plan storage. *)
Definition prodExecutor (planStage applyStage : option models.Stage)
    (tf : terraform.TerraformExecutor unit) (reporter : reporting.Reporter unit)
    : DiggerExecutor.t unit :=
  {| DiggerExecutor.ProjectNamespace := "org/repo";
     DiggerExecutor.ProjectName := "prod";
     DiggerExecutor.ProjectPath := "dev";
     DiggerExecutor.StateEnvVars := [];
     DiggerExecutor.CommandEnvVars := [];
     DiggerExecutor.ApplyStage := applyStage;
     DiggerExecutor.PlanStage := planStage;
     DiggerExecutor.CommandRunner := fixedRunner None;
     DiggerExecutor.TerraformExecutor := tf;
     DiggerExecutor.Reporter := reporter;
     DiggerExecutor.PlanStorage := None;
     DiggerExecutor.PlanPathProvider := ProjectPathProvider.provider orgRepoProd |}.

Definition runStage : models.Stage :=
  {| models.Steps :=
       [ {| models.Action := "run"; models.ExtraArgs := [];
            models.Value := "make lint"; models.Shell := "bash" |} ] |}.

Definition venvEnv : Env :=
  environ [("ACTIVATE_VENV", "true"); ("GITHUB_WORKSPACE", "/home/runner/work/repo")].

(** The wrapper around an executor whose plan succeeds, on a lock that is
    held by someone else. *)
Definition contendedWrapper : LockingExecutorWrapper.t unit :=
  {| LockingExecutorWrapper.ProjectLock := fixedLock false None;
     LockingExecutorWrapper.Executor :=
       DiggerExecutor.executor
         (prodExecutor None None
            (fixedTerraform None (true, planOneRule, "", None) ("", "", None))
            (fixedReporter None)) |}.

(** The default stage with a tool whose [Apply] fails and a reporter that
    cannot deliver. *)
Definition failingApply : DiggerExecutor.t unit :=
  prodExecutor None None
    (fixedTerraform None (true, "", "", None) ("", "Error: some failure", Some "exit status 1"))
    (fixedReporter (Some "no network")).

(** The default plan stage with a tool whose [Plan] fails. *)
Definition failingPlan : DiggerExecutor.t unit :=
  prodExecutor None None
    (fixedTerraform None (true, "Planning failed.", "Error: no credentials",
                          Some "exit status 1") ("", "", None))
    (fixedReporter None).

(** A stage with two plan steps, run against a tool that always prints the
    plan with one rule line. *)
Definition planTwice : DiggerExecutor.t unit :=
  prodExecutor
    (Some {| models.Steps := [models.action "plan"; models.action "validate";
                              models.action "plan"] |})
    None
    (fixedTerraform None (true, planOneRule, "", None) ("", "", None))
    (fixedReporter None).

(** A tool whose [Plan] prints its arguments, and a stage whose two plan
    steps ask for different targets. *)
Definition echoTerraform : terraform.TerraformExecutor unit :=
  {| terraform.Init := fun _ _ s => (("", "", None), s);
     terraform.Plan := fun args _ s => ((true, String.concat " " args, "", None), s);
     terraform.Apply := fun _ _ _ s => (("", "", None), s) |}.

Definition planTwoTargets : DiggerExecutor.t unit :=
  prodExecutor
    (Some {| models.Steps :=
               [ {| models.Action := "plan"; models.ExtraArgs := ["-target=a"];
                    models.Value := ""; models.Shell := "" |};
                 models.action "validate";
                 {| models.Action := "plan"; models.ExtraArgs := ["-target=b"];
                    models.Value := ""; models.Shell := "" |};
                 models.action "init" ] |})
    None echoTerraform (fixedReporter None).

(** A stage of one step whose action [Plan] does not know. *)
Definition validateOnly : DiggerExecutor.t unit :=
  prodExecutor (Some {| models.Steps := [models.action "validate"] |}) None
    (fixedTerraform None (true, planOneRule, "", None) ("", "", None))
    (fixedReporter None).

(** A stage that runs a command and never plans. *)
Definition lintOnly : DiggerExecutor.t unit :=
  prodExecutor (Some runStage) None
    (fixedTerraform None (true, planOneRule, "", None) ("", "", None))
    (fixedReporter None).

(** The default apply stage with a tool whose [Init] fails. *)
Definition failingInit : DiggerExecutor.t unit :=
  prodExecutor None None
    (fixedTerraform (Some "exit status 1") (true, "", "", None) ("", "", None))
    (fixedReporter None).

(** A storage that holds a plan already and takes the new one. *)
Definition fixedStorage (exists_ : bool) (retrieveErr : option error)
    : storage.PlanStorage unit :=
  {| storage.PlanExists := fun _ s => ((exists_, None), s);
     storage.DeleteStoredPlan := fun _ s => (None, s);
     storage.StorePlan := fun _ _ s => (None, s);
     storage.RetrievePlan := fun local _ s => ((Some local, retrieveErr), s) |}.

(** [prodExecutor] with a plan storage. *)
Definition storedExecutor (planStage applyStage : option models.Stage)
    (tf : terraform.TerraformExecutor unit) (planStorage : storage.PlanStorage unit)
    : DiggerExecutor.t unit :=
  {| DiggerExecutor.ProjectNamespace := "org/repo";
     DiggerExecutor.ProjectName := "prod";
     DiggerExecutor.ProjectPath := "dev";
     DiggerExecutor.StateEnvVars := [("TF_STATE", "s3")];
     DiggerExecutor.CommandEnvVars := [("TF_VAR_x", "1")];
     DiggerExecutor.ApplyStage := applyStage;
     DiggerExecutor.PlanStage := planStage;
     DiggerExecutor.CommandRunner := fixedRunner None;
     DiggerExecutor.TerraformExecutor := tf;
     DiggerExecutor.Reporter := fixedReporter (Some "no network");
     DiggerExecutor.PlanStorage := Some planStorage;
     DiggerExecutor.PlanPathProvider := ProjectPathProvider.provider orgRepoProd |}.

(** A tool that succeeds: the plan has one rule line, the apply output holds
    the anchor. *)
Definition appliedOutput : string :=
  "Acquiring state lock." ++ nl ++ changesAnchor ++ nl ++ "Apply complete!".

Definition goodTerraform : terraform.TerraformExecutor unit :=
  fixedTerraform None (true, planOneRule, "", None) (appliedOutput, "", None).

(** * Facts and theorems *)

(** ** Basic facts about byte strings *)

Section StringFacts.

Lemma app_nil_r (s : string) : s ++ "" = s.
Proof. induction s as [|c s IH]; simpl; [reflexivity | now rewrite IH]. Qed.

Lemma length_app (a b : string) :
  String.length (a ++ b) = (String.length a + String.length b)%nat.
Proof. induction a as [|x a IH]; simpl; [reflexivity | now rewrite IH]. Qed.

Lemma len_app (a b : string) : len (a ++ b) = len a + len b.
Proof. unfold len. rewrite length_app. lia. Qed.

Lemma len_nonneg (s : string) : 0 <= len s.
Proof. unfold len. lia. Qed.

Lemma length_zero (s : string) : String.length s = O -> s = "".
Proof. destruct s; simpl; [reflexivity | discriminate]. Qed.

(** Two splittings of one string at the same offset are the same. *)
Lemma app_inj_length (a a' b b' : string) :
  String.length a = String.length a' -> a ++ b = a' ++ b' -> a = a' /\ b = b'.
Proof.
  revert a'. induction a as [|x a IH]; intros [|x' a'] Hlen Heq;
    simpl in *; try discriminate.
  - now split.
  - injection Heq as -> Heq. injection Hlen as Hlen.
    destruct (IH a' Hlen Heq) as [-> ->]. now split.
Qed.

Lemma take_drop (n : nat) (s : string) : take n s ++ drop n s = s.
Proof.
  revert s. induction n as [|n IH]; intros [|c s]; simpl; try reflexivity.
  now rewrite IH.
Qed.

Lemma take_app (a b : string) : take (String.length a) (a ++ b) = a.
Proof. induction a as [|x a IH]; simpl; [now destruct b | now rewrite IH]. Qed.

Lemma drop_app (a b : string) : drop (String.length a) (a ++ b) = b.
Proof. induction a as [|x a IH]; simpl; [reflexivity | exact IH]. Qed.

Lemma take_all (s : string) : take (String.length s) s = s.
Proof. rewrite <- (app_nil_r s) at 2. apply take_app. Qed.

Lemma length_take (n : nat) (s : string) :
  String.length (take n s) = Nat.min n (String.length s).
Proof.
  revert s. induction n as [|n IH]; intros [|c s]; simpl; try reflexivity.
  now rewrite IH.
Qed.

Lemma length_drop (n : nat) (s : string) :
  String.length (drop n s) = (String.length s - n)%nat.
Proof.
  revert s. induction n as [|n IH]; intros [|c s]; simpl; try reflexivity.
  apply IH.
Qed.

(** [prefix p s] holds exactly when [s] begins with [p]. *)
Lemma prefix_app (p t : string) : prefix p (p ++ t) = true.
Proof.
  induction p as [|x p IH]; simpl; [now destruct t |].
  destruct (ascii_dec x x) as [_|N]; [exact IH | now elim N].
Qed.

Lemma prefix_iff (p s : string) : prefix p s = true <-> exists t, s = p ++ t.
Proof.
  split.
  - intros H. eexists. now apply prefix_inv.
  - intros [t ->]. apply prefix_app.
Qed.

Lemma prefix_nil (s : string) : prefix "" s = true.
Proof. now destruct s. Qed.

(** *** Occurrences *)

Lemma OccursAt_Substr (m s : string) (n : nat) : OccursAt m s n -> Substr m s.
Proof. intros (pre & post & -> & _). now exists pre, post. Qed.

Lemma Substr_refl (s : string) : Substr s s.
Proof. exists "", "". simpl. now rewrite app_nil_r. Qed.

Lemma Substr_nil (s : string) : Substr "" s.
Proof. exists "", s. reflexivity. Qed.

Lemma Substr_trans (a b c : string) : Substr a b -> Substr b c -> Substr a c.
Proof.
  intros (p1 & q1 & ->) (p2 & q2 & ->).
  exists (p2 ++ p1), (q1 ++ q2). now rewrite !app_assoc.
Qed.


Lemma OccursAt_zero (m s : string) : OccursAt m s O <-> prefix m s = true.
Proof.
  rewrite prefix_iff. split.
  - intros (pre & post & -> & Hl). apply length_zero in Hl. subst pre. now exists post.
  - intros [t ->]. now exists "", t.
Qed.

Lemma OccursAt_succ (m : string) (c : ascii) (s : string) (n : nat) :
  OccursAt m (String c s) (S n) <-> OccursAt m s n.
Proof.
  split.
  - intros (pre & post & Heq & Hl). destruct pre as [|x pre]; [discriminate|].
    simpl in *. injection Heq as -> ->. injection Hl as Hl. now exists pre, post.
  - intros (pre & post & -> & Hl). exists (String c pre), post. simpl. now rewrite Hl.
Qed.

Lemma OccursAt_bound (m s : string) (n : nat) :
  OccursAt m s n -> (n + String.length m <= String.length s)%nat.
Proof. intros (pre & post & -> & <-). rewrite !length_app. lia. Qed.

Lemma OccursAt_drop (m s : string) (n : nat) :
  OccursAt m s n <-> (n <= String.length s)%nat /\ prefix m (drop n s) = true.
Proof.
  split.
  - intros (pre & post & -> & <-). split.
    + rewrite length_app. lia.
    + rewrite drop_app. apply prefix_app.
  - intros [Hn Hp]. apply prefix_inv in Hp.
    exists (take n s), (drop (String.length m) (drop n s)). split.
    + rewrite <- Hp. symmetry. apply take_drop.
    + rewrite length_take. lia.
Qed.

End StringFacts.

(** ** What [strings.Index] and [strings.LastIndex] return *)

Section IndexFacts.

Import strings.
Local Arguments prefix : simpl never.

Lemma index_nat_Some (m s : string) (n : nat) :
  index_nat m s = Some n ->
  OccursAt m s n /\ forall k, OccursAt m s k -> (n <= k)%nat.
Proof.
  revert n. induction s as [|c s IH]; intros n; simpl.
  - destruct (prefix m "") eqn:P; [|discriminate].
    intros [= <-]. split; [now apply OccursAt_zero | intros; lia].
  - destruct (prefix m (String c s)) eqn:P.
    + intros [= <-]. split; [now apply OccursAt_zero | intros; lia].
    + destruct (index_nat m s) as [j|] eqn:E; [|discriminate].
      intros [= <-]. destruct (IH j eq_refl) as [Hj Hmin]. split.
      * now apply OccursAt_succ.
      * intros [|k] Hk.
        -- apply OccursAt_zero in Hk. congruence.
        -- apply OccursAt_succ in Hk. apply Hmin in Hk. lia.
Qed.


Lemma last_index_nat_None (m s : string) :
  last_index_nat m s = None -> forall k, ~ OccursAt m s k.
Proof.
  induction s as [|c s IH]; simpl.
  - destruct (prefix m "") eqn:P; [discriminate|].
    intros _ k Hk. pose proof (OccursAt_bound _ _ _ Hk) as Hb. simpl in Hb.
    assert (k = O) by lia. subst k. apply OccursAt_zero in Hk. congruence.
  - destruct (last_index_nat m s) as [j|] eqn:E; [discriminate|].
    destruct (prefix m (String c s)) eqn:P; [discriminate|].
    intros _ [|k] Hk.
    + apply OccursAt_zero in Hk. congruence.
    + apply OccursAt_succ in Hk. now apply (IH eq_refl k).
Qed.

Lemma last_index_nat_Some (m s : string) (n : nat) :
  last_index_nat m s = Some n ->
  OccursAt m s n /\ forall k, OccursAt m s k -> (k <= n)%nat.
Proof.
  revert n. induction s as [|c s IH]; intros n; simpl.
  - destruct (prefix m "") eqn:P; [|discriminate].
    intros [= <-]. split; [now apply OccursAt_zero|].
    intros k Hk. apply OccursAt_bound in Hk. simpl in Hk. lia.
  - destruct (last_index_nat m s) as [j|] eqn:E.
    + intros [= <-]. destruct (IH j eq_refl) as [Hj Hmax]. split.
      * now apply OccursAt_succ.
      * intros [|k] Hk; [lia|]. apply OccursAt_succ in Hk. apply Hmax in Hk. lia.
    + destruct (prefix m (String c s)) eqn:P; [|discriminate].
      intros [= <-]. split; [now apply OccursAt_zero|].
      intros [|k] Hk; [lia|]. apply OccursAt_succ in Hk.
      now apply (last_index_nat_None _ _ E) in Hk.
Qed.

(** [Index] is [-1] exactly when there is no occurrence; otherwise it is the
    offset of the first one. *)
Lemma Index_found (s m : string) (i : Z) :
  Index s m = i -> i <> -1 ->
  exists n, i = Z.of_nat n /\ OccursAt m s n /\ forall k, OccursAt m s k -> (n <= k)%nat.
Proof.
  unfold Index. destruct (index_nat m s) as [n|] eqn:E; intros <- Hi; [|easy].
  exists n. split; [reflexivity | now apply index_nat_Some].
Qed.


Lemma Index_prefix (s m : string) : prefix m s = true -> Index s m = 0.
Proof.
  intros H. unfold Index. destruct s; simpl; now rewrite H.
Qed.

Lemma LastIndex_found (s m : string) :
  Substr m s ->
  exists n, LastIndex s m = Z.of_nat n /\ OccursAt m s n /\
            forall k, OccursAt m s k -> (k <= n)%nat.
Proof.
  intros (pre & post & ->). unfold LastIndex.
  destruct (last_index_nat m (pre ++ m ++ post)) as [n|] eqn:E.
  - exists n. split; [reflexivity | now apply last_index_nat_Some].
  - exfalso. apply (last_index_nat_None _ _ E (String.length pre)). now exists pre, post.
Qed.

End IndexFacts.

(** ** The checked slice expression *)

Section SliceFacts.

Lemma slice_OccursAt (m s : string) (n : nat) :
  OccursAt m s n -> slice s (Z.of_nat n) (Z.of_nat n + len m) = Some m.
Proof.
  intros (pre & post & -> & <-). unfold slice.
  assert (B : (0 <=? Z.of_nat (String.length pre)) &&
              (Z.of_nat (String.length pre) <=? Z.of_nat (String.length pre) + len m) &&
              (Z.of_nat (String.length pre) + len m <=? len (pre ++ m ++ post)) = true).
  { rewrite !andb_true_iff, !Z.leb_le, !len_app.
    pose proof (len_nonneg m). pose proof (len_nonneg post). unfold len. lia. }
  rewrite B. f_equal.
  rewrite Nat2Z.id, drop_app.
  replace (Z.to_nat (Z.of_nat (String.length pre) + len m - Z.of_nat (String.length pre)))
    with (String.length m) by (unfold len; lia).
  apply take_app.
Qed.

Lemma slice_Some (s r : string) (lo hi : Z) :
  slice s lo hi = Some r ->
  exists n, lo = Z.of_nat n /\ OccursAt r s n /\ hi = lo + len r.
Proof.
  unfold slice.
  destruct ((0 <=? lo) && (lo <=? hi) && (hi <=? len s)) eqn:B; [|discriminate].
  rewrite !andb_true_iff, !Z.leb_le in B. destruct B as [[H0 H1] H2].
  intros [= <-]. exists (Z.to_nat lo). split; [lia|].
  set (a := Z.to_nat lo). set (k := Z.to_nat (hi - lo)).
  assert (Ha : (a <= String.length s)%nat) by (unfold len in H2; lia).
  assert (Hk : (k <= String.length (drop a s))%nat)
    by (rewrite length_drop; unfold len in H2; lia).
  split.
  - exists (take a s), (drop k (drop a s)). split.
    + rewrite take_drop. symmetry. apply take_drop.
    + rewrite length_take. lia.
  - unfold len. rewrite length_take. lia.
Qed.

Lemma slice_total (s : string) (lo hi : Z) :
  0 <= lo <= hi -> hi <= len s -> exists r, slice s lo hi = Some r.
Proof.
  intros [H0 H1] H2. unfold slice.
  replace ((0 <=? lo) && (lo <=? hi) && (hi <=? len s)) with true; [eauto|].
  symmetry. rewrite !andb_true_iff, !Z.leb_le. lia.
Qed.

Lemma slice_all (s : string) : slice s 0 (len s) = Some s.
Proof.
  replace (len s) with (Z.of_nat 0 + len s) by lia.
  apply (slice_OccursAt s s O). exists "", "". simpl. now rewrite app_nil_r.
Qed.

Lemma slice_from (s : string) (n : nat) :
  (n <= String.length s)%nat -> slice s (Z.of_nat n) (len s) = Some (drop n s).
Proof.
  intros Hn.
  replace (len s) with (Z.of_nat n + len (drop n s))
    by (unfold len; rewrite length_drop; lia).
  apply slice_OccursAt. exists (take n s), "". split.
  - now rewrite app_nil_r, take_drop.
  - rewrite length_take. lia.
Qed.

End SliceFacts.

(** ** The sanitizer *)

Section SanitizerFacts.

Local Arguments prefix : simpl never.

Lemma afterMarker_suffix (stdout : string) :
  exists pre, stdout = pre ++ afterMarker stdout.
Proof.
  unfold afterMarker. destruct (strings.index_nat backendMarker stdout) as [n|].
  - exists (take n stdout). now rewrite take_drop.
  - now exists "".
Qed.

Lemma marker_trim (stdout : string) :
  (let i := strings.Index stdout backendMarker in
   if negb (i =? -1) then slice stdout i (len stdout) else Some stdout)
  = Some (afterMarker stdout).
Proof.
  cbv zeta. unfold strings.Index, afterMarker.
  destruct (strings.index_nat backendMarker stdout) as [n|] eqn:E.
  - replace (Z.of_nat n =? -1) with false by (symmetry; apply Z.eqb_neq; lia).
    cbn [negb]. apply slice_from.
    apply index_nat_Some in E as [E _]. apply OccursAt_bound in E. lia.
  - reflexivity.
Qed.

Lemma cleanup_error (ne : bool) (e : error) (stdout stderr : string)
    (re : option Regexp) :
  cleanupTerraformOutput ne (Some e) stdout stderr re
  = Some (if (stderr =? "")%string then afterMarker stdout else stderr).
Proof.
  unfold cleanupTerraformOutput. cbv zeta.
  pose proof (marker_trim stdout) as M. cbv zeta in M. rewrite M.
  destruct (String.eqb_spec stderr "") as [->|]; cbn [negb]; [|reflexivity].
  destruct (String.eqb_spec (afterMarker stdout) "") as [->|]; reflexivity.
Qed.

Lemma cleanup_nil (ne : bool) (stdout stderr : string) (re : option Regexp) :
  cleanupTerraformOutput ne None stdout stderr re
  = let s := afterMarker stdout in
    slice s (startPosOf ne s) (guardedEnd (startPosOf ne s) (endPosOf re s) s).
Proof.
  unfold cleanupTerraformOutput. cbv zeta.
  pose proof (marker_trim stdout) as M. cbv zeta in M. rewrite M.
  reflexivity.
Qed.

Lemma startPosOf_range (ne : bool) (s : string) : 0 <= startPosOf ne s <= len s.
Proof.
  unfold startPosOf. cbv zeta.
  destruct (Z.eqb_spec (strings.Index s (startAnchor ne)) (-1)) as [|N].
  - pose proof (len_nonneg s). lia.
  - destruct (Index_found _ _ _ eq_refl N) as (n & -> & Hn & _).
    apply OccursAt_bound in Hn. unfold len. lia.
Qed.

Lemma endPosOf_range (re : option Regexp) (s : string) : 0 <= endPosOf re s <= len s.
Proof.
  pose proof (len_nonneg s).
  unfold endPosOf. destruct re as [regex|]; [|lia].
  destruct (FindStringSubmatch regex s) as [|m gs] eqn:F; [lia|].
  apply FindStringSubmatch_text in F.
  destruct (LastIndex_found _ _ F) as (n & -> & Hn & _).
  apply OccursAt_bound in Hn. unfold len. lia.
Qed.

Lemma guardedEnd_range (a e : Z) (s : string) :
  0 <= a <= len s -> 0 <= e <= len s ->
  a <= guardedEnd a e s <= len s.
Proof. unfold guardedEnd. destruct (Z.leb_spec e a); lia. Qed.

End SanitizerFacts.

(** C1.  The sanitizer is total: whatever the flag, the error, the two output
    strings and the (compiled) trailing pattern, no slice expression is out of
    range, and the result is a contiguous piece of the output as trimmed at the
    marker, or the error output, or empty. *)
Theorem cleanupTerraformOutput_total
    (nonEmptyChange : bool) (operationError : option error)
    (stdout stderr : string) (trailingPattern : option Regexp) :
  exists r,
    cleanupTerraformOutput nonEmptyChange operationError stdout stderr trailingPattern
      = Some r /\
    (Substr r (afterMarker stdout) \/ r = stderr \/ r = "").
Proof.
  destruct operationError as [e|].
  - rewrite cleanup_error. eexists. split; [reflexivity|].
    destruct (stderr =? "")%string; [left; apply Substr_refl | right; now left].
  - rewrite cleanup_nil. cbv zeta.
    set (s := afterMarker stdout).
    pose proof (startPosOf_range nonEmptyChange s) as Ha.
    pose proof (endPosOf_range trailingPattern s) as He.
    pose proof (guardedEnd_range _ _ s Ha He) as Hg.
    destruct (slice_total s (startPosOf nonEmptyChange s)
                (guardedEnd (startPosOf nonEmptyChange s) (endPosOf trailingPattern s) s))
      as [r Hr]; [lia | lia |].
    exists r. split; [exact Hr|]. left.
    apply slice_Some in Hr as (n & _ & Hn & _). now apply OccursAt_Substr in Hn.
Qed.

(** *** Where the result ends *)

(** C5, counterexample.  With two rule lines of different text the result ends
    after the first one (the second, which is the last match, stays cut off
    together with the line between them); and with the only rule line before
    the anchor the guard resets the end, so the result runs to the end of the
    output and does not end at the match. *)
Lemma cleanupTerraformPlan_end_not_last_match :
  (planRuleMatches planTwoRules
     = [(56%nat, "────────────────"); (121%nat, "─────────────")] /\
   cleanupTerraformPlan true None planTwoRules ""
     = Some (changesAnchor ++ nl ++ "  + thing" ++ nl ++ "────────────────") /\
   ~ EndsAt (changesAnchor ++ nl ++ "  + thing" ++ nl ++ "────────────────")
            planTwoRules (121 + 39)) /\
  (planRuleMatches planRuleFirst = [(0%nat, "─────────────")] /\
   cleanupTerraformPlan true None planRuleFirst ""
     = Some (changesAnchor ++ nl ++ "  + thing") /\
   ~ EndsAt (changesAnchor ++ nl ++ "  + thing") planRuleFirst (0 + 39)).
Proof.
  split; (split; [vm_compute; reflexivity | split; [vm_compute; reflexivity |]]).
  - intros [_ H]. vm_compute in H. discriminate H.
  - intros [_ H]. vm_compute in H. discriminate H.
Qed.

(** C5, as the code has it.  When no error is passed and the pattern matches
    the output (as trimmed at the marker), let [m] be the text of its leftmost
    match and [n] the offset of the last occurrence of that text.  If
    [n + len m] lies after the start position the result is the piece from the
    start position to just past that occurrence; otherwise the guard resets
    the end and the result runs from the start position to the end. *)
Theorem cleanupTerraformOutput_end_after_match_text
    (nonEmptyChange : bool) (stdout stderr : string) (regex : Regexp)
    (m : string) (groups : list string) :
  FindStringSubmatch regex (afterMarker stdout) = m :: groups ->
  exists (n : nat) (r pre : string),
    OccursAt m (afterMarker stdout) n /\
    (forall k, OccursAt m (afterMarker stdout) k -> (k <= n)%nat) /\
    cleanupTerraformOutput nonEmptyChange None stdout stderr (Some regex) = Some r /\
    len pre = startPosOf nonEmptyChange (afterMarker stdout) /\
    if startPosOf nonEmptyChange (afterMarker stdout) <? Z.of_nat n + len m
    then take (n + String.length m) (afterMarker stdout) = pre ++ r
    else afterMarker stdout = pre ++ r.
Proof.
  intros F. set (s := afterMarker stdout) in *.
  pose proof (FindStringSubmatch_text _ _ _ _ F) as Hsub.
  destruct (LastIndex_found _ _ Hsub) as (n & HL & Hn & Hmax).
  pose proof (startPosOf_range nonEmptyChange s) as Ha.
  set (a := startPosOf nonEmptyChange s) in *.
  assert (He : endPosOf (Some regex) s = Z.of_nat n + len m).
  { unfold endPosOf. now rewrite F, HL. }
  pose proof (OccursAt_bound _ _ _ Hn) as Hb.
  rewrite cleanup_nil. cbv zeta. fold s. fold a. rewrite He.
  unfold guardedEnd.
  destruct (Z.ltb_spec a (Z.of_nat n + len m)) as [Hlt|Hge].
  - replace (Z.of_nat n + len m <=? a) with false by (symmetry; apply Z.leb_gt; lia).
    destruct (slice_total s a (Z.of_nat n + len m)) as [r Hr];
      [lia | unfold len in *; lia |].
    exists n, r. apply slice_Some in Hr as Hr'.
    destruct Hr' as (k & Hk & (pre & post & Hs & Hpre) & Hhi).
    exists pre. repeat split; try assumption.
    + unfold len. lia.
    + destruct (Z.ltb_spec a (Z.of_nat n + len m)); [|lia].
      rewrite Hs.
      replace (n + String.length m)%nat with (String.length (pre ++ r))
        by (rewrite length_app; unfold len in *; lia).
      rewrite <- app_assoc. apply take_app.
  - replace (Z.of_nat n + len m <=? a) with true by (symmetry; apply Z.leb_le; lia).
    destruct (slice_total s a (len s)) as [r Hr]; [lia | lia |].
    exists n, r. apply slice_Some in Hr as Hr'.
    destruct Hr' as (k & Hk & (pre & post & Hs & Hpre) & Hhi).
    exists pre. repeat split; try assumption.
    + unfold len. lia.
    + destruct (Z.ltb_spec a (Z.of_nat n + len m)); [lia|].
      assert (post = "") as ->.
      { apply length_zero. apply (f_equal len) in Hs.
        rewrite !len_app in Hs. unfold len in *. lia. }
      now rewrite app_nil_r in Hs.
Qed.

(** The theorem at a plan with one rule line after the anchor: the result
    stops with that line. *)
Lemma cleanupTerraformOutput_end_after_match_text_witness :
  FindStringSubmatch (literal_dotplus planRule)
    (afterMarker planOneRule)
    = ["─────────────"] /\
  exists (n : nat) (r pre : string),
    OccursAt "─────────────"
(afterMarker planOneRule) n /\
    (forall k,
        OccursAt "─────────────"
          (afterMarker planOneRule) k ->
        (k <= n)%nat) /\
    cleanupTerraformOutput true None
      planOneRule ""
      (Some (literal_dotplus planRule)) = Some r /\
    len pre = startPosOf true
      (afterMarker planOneRule) /\
    if startPosOf true
         (afterMarker planOneRule)
       <? Z.of_nat n + len "─────────────"
    then take (n + String.length "─────────────")
           (afterMarker planOneRule)
         = pre ++ r
    else afterMarker planOneRule
         = pre ++ r.
Proof.
  split; [reflexivity|].
  apply (cleanupTerraformOutput_end_after_match_text true
           planOneRule ""
           (literal_dotplus planRule) "─────────────" []).
  reflexivity.
Defined.

(** *** Sanitizing twice *)

Section Resanitize.

Local Arguments prefix : simpl never.


Lemma afterMarker_fixed (r : string) :
  strings.Index r backendMarker <= 0 -> afterMarker r = r.
Proof.
  unfold strings.Index, afterMarker.
  destruct (strings.index_nat backendMarker r) as [[|n]|]; intros H;
    [reflexivity | lia | reflexivity].
Qed.



End Resanitize.




(** ** Plan file names and paths: facts *)

Section DerivationFacts.

Import ProjectPathProvider.

Lemma ReplaceAll_byte (a b : ascii) (s : string) :
  strings.ReplaceAll s (String a "") (String b "")
  = map_bytes (fun c => if Ascii.eqb c a then b else c) s.
Proof.
  unfold strings.ReplaceAll. induction s as [|c s IH]; [reflexivity|].
  cbn [strings.replace_from map_bytes prefix].
  destruct (ascii_dec a c) as [->|N].
  - rewrite prefix_nil, Ascii.eqb_refl. simpl. now rewrite IH.
  - replace (Ascii.eqb c a) with false
      by (symmetry; apply Ascii.eqb_neq; congruence).
    now rewrite IH.
Qed.

Lemma has_byte_app (c : ascii) (a b : string) :
  has_byte c (a ++ b) = has_byte c a || has_byte c b.
Proof.
  induction a as [|x a IH]; simpl; [reflexivity|]. now rewrite IH, orb_assoc.
Qed.

Lemma has_byte_map_slash (c : ascii) (s : string) :
  c <> ":"%char -> has_byte c s = false ->
  has_byte c (map_bytes slash_to_colon s) = false.
Proof.
  intros Hc. induction s as [|x s IH]; simpl; [reflexivity|].
  rewrite orb_false_iff. intros [Hx Hs]. rewrite (IH Hs), orb_false_r.
  unfold slash_to_colon. destruct (Ascii.eqb x "/"); [|exact Hx].
  apply Ascii.eqb_neq. congruence.
Qed.

Lemma map_slash_inj (s s' : string) :
  has_byte ":" s = false -> has_byte ":" s' = false ->
  map_bytes slash_to_colon s = map_bytes slash_to_colon s' -> s = s'.
Proof.
  revert s'. induction s as [|x s IH]; intros [|y s']; simpl; try discriminate.
  - reflexivity.
  - rewrite !orb_false_iff. intros [Hx Hs] [Hy Hs'] [= Hxy Hrest].
    f_equal; [|now apply IH].
    unfold slash_to_colon in Hxy.
    destruct (Ascii.eqb_spec x "/") as [->|], (Ascii.eqb_spec y "/") as [->|];
      subst; try reflexivity; simpl in *; discriminate.
Qed.

(** Two texts that agree, each cut at its first [c], agree piece by piece. *)
Lemma split_at_first_byte (c : ascii) (a a' b b' : string) :
  has_byte c a = false -> has_byte c a' = false ->
  a ++ String c b = a' ++ String c b' -> a = a' /\ b = b'.
Proof.
  revert a'. induction a as [|x a IH]; intros [|y a']; simpl.
  - intros _ _ [= ->]. now split.
  - rewrite orb_false_iff. intros _ [Hy _] [= <- _].
    now rewrite Ascii.eqb_refl in Hy.
  - rewrite orb_false_iff. intros [Hx _] _ [= -> _].
    now rewrite Ascii.eqb_refl in Hx.
  - rewrite !orb_false_iff. intros [_ Ha] [_ Ha'] [= -> Hrest].
    destruct (IH a' Ha Ha' Hrest) as [-> ->]. now split.
Qed.

Lemma app_inv_tail (a a' t : string) : a ++ t = a' ++ t -> a = a'.
Proof.
  intros H. apply (app_inj_length a a' t t); [|exact H].
  apply (f_equal String.length) in H. rewrite !length_app in H. lia.
Qed.

Lemma PlanFileName_eq (d : t) :
  PlanFileName d
  = map_bytes slash_to_colon (ProjectNamespace d) ++ "#" ++ ProjectName d ++ ".tfplan".
Proof. unfold PlanFileName. now rewrite ReplaceAll_byte. Qed.

Lemma PlanFileName_inj (d d' : t) :
  has_byte ":" (ProjectNamespace d) = false ->
  has_byte "#" (ProjectNamespace d) = false ->
  has_byte ":" (ProjectNamespace d') = false ->
  has_byte "#" (ProjectNamespace d') = false ->
  PlanFileName d = PlanFileName d' ->
  ProjectNamespace d = ProjectNamespace d' /\ ProjectName d = ProjectName d'.
Proof.
  intros Hc Hh Hc' Hh'. rewrite !PlanFileName_eq. intros H.
  apply split_at_first_byte in H as [Hns Hname];
    try (apply has_byte_map_slash; [discriminate | assumption]).
  split.
  - now apply map_slash_inj.
  - now apply app_inv_tail in Hname.
Qed.

End DerivationFacts.

(** *** The last element of a joined path *)

Section JoinFacts.

Import path.

Lemma string_of_list_ascii_snoc (l : list ascii) (c : ascii) (s : string) :
  string_of_list_ascii (l ++ [c]) ++ s = string_of_list_ascii l ++ String c s.
Proof. induction l as [|x l IH]; simpl; [reflexivity | now rewrite IH]. Qed.

Lemma split_from_app_slash (cur : list ascii) (a b : string) :
  split_from cur (a ++ String "/" b) = (split_from cur a ++ split_from [] b)%list.
Proof.
  revert cur. induction a as [|c a IH]; intros cur; simpl; [reflexivity|].
  destruct (Ascii.eqb c "/"); simpl; now rewrite IH.
Qed.

Lemma split_from_plain (cur : list ascii) (f : string) :
  has_byte "/" f = false ->
  split_from cur f = [string_of_list_ascii (rev cur) ++ f].
Proof.
  revert cur. induction f as [|c f IH]; intros cur; simpl.
  - now rewrite app_nil_r.
  - rewrite orb_false_iff. intros [Hc Hf]. rewrite Hc, (IH _ Hf). simpl.
    now rewrite string_of_list_ascii_snoc.
Qed.

Lemma elements_snoc (a f : string) :
  has_byte "/" f = false -> elements (a ++ String "/" f) = (elements a ++ [f])%list.
Proof.
  intros Hf. unfold elements. rewrite split_from_app_slash.
  now rewrite (split_from_plain [] f Hf).
Qed.

Lemma basename_plain (f : string) : has_byte "/" f = false -> basename f = f.
Proof. intros Hf. unfold basename, elements. now rewrite (split_from_plain [] f Hf). Qed.

Lemma basename_snoc (a f : string) :
  has_byte "/" f = false -> basename (a ++ String "/" f) = f.
Proof. intros Hf. unfold basename. rewrite (elements_snoc a f Hf). apply last_last. Qed.

Lemma clean_elements_snoc (rooted : bool) (kept es : list string) (f : string) :
  plain_element f ->
  clean_elements rooted kept (es ++ [f])%list
  = (clean_elements rooted kept es ++ [f])%list.
Proof.
  intros (_ & H0 & H1 & H2). revert kept.
  induction es as [|e es IH]; intros kept; simpl.
  - apply String.eqb_neq in H0, H1, H2. now rewrite H0, H1, H2.
  - destruct ((e =? "")%string || (e =? ".")%string); [apply IH|].
    destruct (e =? "..")%string; [|apply IH].
    destruct kept as [|top below]; [destruct rooted; apply IH|].
    destruct (top =? "..")%string; apply IH.
Qed.

Lemma concat_snoc (l : list string) (f : string) :
  String.concat "/" (l ++ [f])
  = match l with [] => f | _ => String.concat "/" l ++ String "/" f end.
Proof.
  induction l as [|x l IH]; [reflexivity|].
  change ((x :: l) ++ [f])%list with (x :: (l ++ [f]))%list.
  destruct l as [|y l]; [reflexivity|].
  change (String.concat "/" (x :: (y :: l) ++ [f]))
    with (x ++ "/" ++ String.concat "/" ((y :: l) ++ [f])).
  rewrite IH.
  change (String.concat "/" (x :: y :: l)) with (x ++ "/" ++ String.concat "/" (y :: l)).
  now rewrite !app_assoc.
Qed.

(** Cleaning keeps a plain last element in last place. *)
Lemma basename_Clean_snoc (p f : string) :
  plain_element f -> p <> "" -> basename (Clean (p ++ String "/" f)) = f.
Proof.
  intros Hf Hp. pose proof Hf as (Hs & Hne & _).
  destruct p as [|c p]; [easy|].
  unfold Clean. cbn [append]. cbv zeta.
  change (String c (p ++ String "/" f)) with (String c p ++ String "/" f).
  rewrite (elements_snoc _ _ Hs), (clean_elements_snoc _ _ _ _ Hf), concat_snoc.
  destruct (clean_elements (Ascii.eqb c "/") [] (elements (String c p))) as [|x l] eqn:E.
  - destruct (Ascii.eqb c "/").
    + apply (basename_snoc "" f Hs).
    + apply String.eqb_neq in Hne. rewrite Hne. now apply basename_plain.
  - destruct (Ascii.eqb c "/").
    + apply (basename_snoc (String "/" (String.concat "/" (x :: l))) f Hs).
    + destruct (String.eqb_spec (String.concat "/" (x :: l) ++ String "/" f) "") as [Z|_].
      * apply (f_equal String.length) in Z. rewrite length_app in Z. simpl in Z. lia.
      * now apply basename_snoc.
Qed.

Lemma basename_Clean_plain (f : string) : plain_element f -> basename (Clean f) = f.
Proof.
  intros Hf. pose proof Hf as (Hs & Hne & _).
  destruct f as [|c f]; [easy|].
  assert (Hc : Ascii.eqb c "/" = false) by (simpl in Hs; now apply orb_false_iff in Hs).
  unfold Clean. cbv zeta. rewrite Hc.
  unfold elements. rewrite (split_from_plain [] _ Hs).
  pose proof (clean_elements_snoc false [] [] _ Hf) as C. simpl in C |- *.
  rewrite C. cbn [String.concat].
  replace (String c f =? "")%string with false by reflexivity.
  now apply basename_plain.
Qed.

Lemma basename_Join (p f : string) :
  plain_element f -> basename (Join [p; f]) = f.
Proof.
  intros Hf. pose proof Hf as (_ & Hne & _). unfold Join. cbn [filter].
  apply String.eqb_neq in Hne. rewrite Hne. cbn [negb].
  destruct (String.eqb_spec p "") as [->|Hp]; cbn [negb].
  - cbn [String.concat]. now apply basename_Clean_plain.
  - cbn [String.concat]. now apply basename_Clean_snoc.
Qed.

End JoinFacts.

(** *** What the derivation gives *)

(** C4, counterexample.  Namespaces [org/repo] and [org:repo] give the same
    file name and the same local path; and a name with a [..] element gives
    the storage key (and local path) of another name. *)
Lemma plan_file_names_collide :
  (identity orgRepoProd <> identity orgColonRepoProd /\
   ProjectPathProvider.PlanFileName orgRepoProd
     = ProjectPathProvider.PlanFileName orgColonRepoProd /\
   ProjectPathProvider.LocalPlanFilePath orgRepoProd
     = ProjectPathProvider.LocalPlanFilePath orgColonRepoProd) /\
  (identity orgRepoProd <> identity orgRepoDotDot /\
   ProjectPathProvider.StoredPlanFilePath orgRepoProd
     = ProjectPathProvider.StoredPlanFilePath orgRepoDotDot /\
   ProjectPathProvider.LocalPlanFilePath orgRepoProd
     = ProjectPathProvider.LocalPlanFilePath orgRepoDotDot).
Proof.
  repeat split; try reflexivity; intros H; discriminate H.
Qed.

Lemma PlanFileName_plain (d : ProjectPathProvider.t) :
  has_byte "/" (ProjectPathProvider.ProjectName d) = false ->
  plain_element (ProjectPathProvider.PlanFileName d).
Proof.
  intros Hn. rewrite PlanFileName_eq.
  set (ns := map_bytes slash_to_colon (ProjectPathProvider.ProjectNamespace d)).
  assert (Hns : has_byte "/" ns = false).
  { subst ns. induction (ProjectPathProvider.ProjectNamespace d) as [|c s IH];
      simpl; [reflexivity|]. rewrite IH, orb_false_r. unfold slash_to_colon.
    destruct (Ascii.eqb_spec c "/") as [->|]; [reflexivity|].
    now apply Ascii.eqb_neq. }
  assert (Hh : has_byte "#" (ns ++ "#" ++ ProjectPathProvider.ProjectName d ++ ".tfplan") = true).
  { rewrite has_byte_app. simpl. apply orb_true_r. }
  split; [|repeat split; intros E; rewrite E in Hh; discriminate Hh].
  rewrite !has_byte_app, Hns, Hn. reflexivity.
Qed.

(** C4, as the code has it.  The plan file name is the namespace with every
    slash turned into a colon, then [#], the project name and [.tfplan]; the
    local path is [path.Join] of project path and file name, the storage key
    [path.Join] of namespace and file name (being Rocq functions they are pure
    and give the same result on every call); [org/repo] with [prod] gives
    [org:repo#prod.tfplan].  Two identities whose namespaces hold neither a
    colon nor [#] and that differ in namespace or name have different file
    names, and, when the names hold no slash, different local paths and
    different storage keys. *)
Theorem plan_file_derivation (d d' : ProjectPathProvider.t) :
  ProjectPathProvider.PlanFileName d
    = map_bytes slash_to_colon (ProjectPathProvider.ProjectNamespace d)
      ++ "#" ++ ProjectPathProvider.ProjectName d ++ ".tfplan" /\
  ProjectPathProvider.LocalPlanFilePath d
    = path.Join [ProjectPathProvider.ProjectPath d; ProjectPathProvider.PlanFileName d] /\
  ProjectPathProvider.StoredPlanFilePath d
    = path.Join [ProjectPathProvider.ProjectNamespace d; ProjectPathProvider.PlanFileName d] /\
  ProjectPathProvider.PlanFileName orgRepoProd = "org:repo#prod.tfplan" /\
  (has_byte ":" (ProjectPathProvider.ProjectNamespace d) = false ->
   has_byte "#" (ProjectPathProvider.ProjectNamespace d) = false ->
   has_byte ":" (ProjectPathProvider.ProjectNamespace d') = false ->
   has_byte "#" (ProjectPathProvider.ProjectNamespace d') = false ->
   identity d <> identity d' ->
   ProjectPathProvider.PlanFileName d <> ProjectPathProvider.PlanFileName d' /\
   (has_byte "/" (ProjectPathProvider.ProjectName d) = false ->
    has_byte "/" (ProjectPathProvider.ProjectName d') = false ->
    ProjectPathProvider.LocalPlanFilePath d <> ProjectPathProvider.LocalPlanFilePath d' /\
    ProjectPathProvider.StoredPlanFilePath d <> ProjectPathProvider.StoredPlanFilePath d')).
Proof.
  split; [apply PlanFileName_eq|].
  split; [reflexivity|]. split; [reflexivity|]. split; [reflexivity|].
  intros Hc Hh Hc' Hh' Hid.
  assert (Hname : ProjectPathProvider.PlanFileName d <> ProjectPathProvider.PlanFileName d').
  { intros E. apply Hid. unfold identity.
    destruct (PlanFileName_inj d d' Hc Hh Hc' Hh' E) as [-> ->]. reflexivity. }
  split; [exact Hname|].
  intros Hn Hn'.
  pose proof (PlanFileName_plain d Hn) as P.
  pose proof (PlanFileName_plain d' Hn') as P'.
  split; intros E; apply Hname; apply (f_equal basename) in E;
    unfold ProjectPathProvider.LocalPlanFilePath,
           ProjectPathProvider.StoredPlanFilePath in E;
    now rewrite !basename_Join in E.
Qed.

Lemma plan_file_derivation_witness :
  ProjectPathProvider.PlanFileName orgRepoProd
    <> ProjectPathProvider.PlanFileName orgRepoStaging /\
  ProjectPathProvider.LocalPlanFilePath orgRepoProd
    <> ProjectPathProvider.LocalPlanFilePath orgRepoStaging /\
  ProjectPathProvider.StoredPlanFilePath orgRepoProd
    <> ProjectPathProvider.StoredPlanFilePath orgRepoStaging.
Proof.
  destruct (plan_file_derivation orgRepoProd orgRepoStaging) as (_ & _ & _ & _ & H).
  destruct H as [H1 H2]; try reflexivity.
  - intros E. discriminate E.
  - split; [exact H1|]. apply H2; reflexivity.
Defined.

(** ** The locking wrapper *)

(** C2.  Whatever executor is wrapped: when [Lock()] gives an error, [Plan]
    and [Apply] return it wrapped; when it gives [(false, nil)] they return
    [(false, "", nil)] and [(false, nil)]; in both cases the state is the one
    [Lock()] left, the only events are the call of [Lock()] and the log line,
    and the result is the same for every wrapped executor, which is thus not
    called.  When the lock is acquired the wrapped executor runs next and its
    results, state and events are passed on as they are. *)
Theorem LockingExecutorWrapper_Plan_Apply {S : Type}
    (l : LockingExecutorWrapper.t S) (env : Env) (s s' : S)
    (acquired : bool) (err : option error) :
  locking.Lock (LockingExecutorWrapper.ProjectLock l) s = ((acquired, err), s') ->
  match err, acquired with
  | Some e, _ =>
      forall other : Executor.t S,
        let l' := {| LockingExecutorWrapper.ProjectLock := LockingExecutorWrapper.ProjectLock l;
                     LockingExecutorWrapper.Executor := other |} in
        LockingExecutorWrapper.Plan l' env s
          = (Some (false, "", Some ("error locking project: " ++ e)), s',
             [CallLock acquired (Some e)]) /\
        LockingExecutorWrapper.Apply l' env s
          = (Some (false, Some ("error locking project: " ++ e)), s',
             [CallLock acquired (Some e)])
  | None, false =>
      forall other : Executor.t S,
        let l' := {| LockingExecutorWrapper.ProjectLock := LockingExecutorWrapper.ProjectLock l;
                     LockingExecutorWrapper.Executor := other |} in
        LockingExecutorWrapper.Plan l' env s
          = (Some (false, "", None), s',
             [CallLock false None; Logged ("Lock result: false" ++ nl)]) /\
        LockingExecutorWrapper.Apply l' env s
          = (Some (false, None), s',
             [CallLock false None; Logged ("Lock result: false" ++ nl)])
  | None, true =>
      LockingExecutorWrapper.Plan l env s
        = (let '(r, s'', t) := Executor.Plan (LockingExecutorWrapper.Executor l) env s' in
           (r, s'', [CallLock true None; Logged ("Lock result: true" ++ nl)] ++ t)%list) /\
      LockingExecutorWrapper.Apply l env s
        = (let '(r, s'', t) := Executor.Apply (LockingExecutorWrapper.Executor l) env s' in
           (r, s'', [CallLock true None; Logged ("Lock result: true" ++ nl)] ++ t)%list)
  end.
Proof.
  intros HL.
  destruct err as [e|]; [|destruct acquired].
  - intros other l'. subst l'.
    unfold LockingExecutorWrapper.Plan, LockingExecutorWrapper.Apply,
      func, bind, call, returns. cbn. rewrite HL. cbn. split; reflexivity.
  - unfold LockingExecutorWrapper.Plan, LockingExecutorWrapper.Apply,
      func, bind, call, emit, return_call. cbn. rewrite HL. cbn.
    split.
    + destruct (Executor.Plan (LockingExecutorWrapper.Executor l) env s')
        as [[[r|] s''] t]; reflexivity.
    + destruct (Executor.Apply (LockingExecutorWrapper.Executor l) env s')
        as [[[r|] s''] t]; reflexivity.
  - intros other l'. subst l'.
    unfold LockingExecutorWrapper.Plan, LockingExecutorWrapper.Apply,
      func, bind, call, emit, returns. cbn. rewrite HL. cbn. split; reflexivity.
Qed.

Lemma LockingExecutorWrapper_Plan_Apply_witness :
  LockingExecutorWrapper.Plan contendedWrapper (environ []) tt
    = (Some (false, "", None), tt,
       [CallLock false None; Logged ("Lock result: false" ++ nl)]) /\
  LockingExecutorWrapper.Apply contendedWrapper (environ []) tt
    = (Some (false, None), tt,
       [CallLock false None; Logged ("Lock result: false" ++ nl)]).
Proof.
  exact (LockingExecutorWrapper_Plan_Apply contendedWrapper (environ []) tt tt
           false None eq_refl (LockingExecutorWrapper.Executor contendedWrapper)).
Defined.

(** C9.  [Lock()] of the wrapper returns [nil] whenever the lock's [Lock()]
    gives no error, whether the lock was acquired or not: the result, the
    state and the events do not tell the two apart but for the recorded
    answer of the lock itself. *)
Theorem LockingExecutorWrapper_Lock_discards_acquired {S : Type}
    (l : LockingExecutorWrapper.t S) (env : Env) (s s' : S) (acquired : bool) :
  locking.Lock (LockingExecutorWrapper.ProjectLock l) s = ((acquired, None), s') ->
  LockingExecutorWrapper.Lock l env s = (Some None, s', [CallLock acquired None]).
Proof.
  intros HL. unfold LockingExecutorWrapper.Lock, func, bind, call, returns.
  cbn. rewrite HL. reflexivity.
Qed.

Lemma LockingExecutorWrapper_Lock_discards_acquired_witness :
  LockingExecutorWrapper.Lock contendedWrapper (environ []) tt
    = (Some None, tt, [CallLock false None]).
Proof.
  exact (LockingExecutorWrapper_Lock_discards_acquired contendedWrapper (environ [])
           tt tt false eq_refl).
Defined.

(** ** Facts about statements *)

Section StatementFacts.

Context {S R : Type}.

Lemma bind_next_l {A B : Type} (a : A) (k : A -> Exec S R B) (env : Env) (s : S) :
  bind (next a) k env s = k a env s.
Proof. unfold bind, next. now destruct (k a env s) as [[o s2] t2]. Qed.

Lemma bind_Next {A B : Type} (m : Exec S R A) (k : A -> Exec S R B)
    (env : Env) (s s1 : S) (a : A) (t1 : list Event) :
  m env s = (Next a, s1, t1) ->
  bind m k env s = (let '(o, s2, t2) := k a env s1 in (o, s2, (t1 ++ t2)%list)).
Proof. intros H. unfold bind. now rewrite H. Qed.

Lemma bind_Returned {A B : Type} (m : Exec S R A) (k : A -> Exec S R B)
    (env : Env) (s s1 : S) (r : R) (t1 : list Event) :
  m env s = (Returned r, s1, t1) -> bind m k env s = (Returned r, s1, t1).
Proof. intros H. unfold bind. now rewrite H. Qed.

Lemma bind_ext {A B : Type} (m : Exec S R A) (k k' : A -> Exec S R B)
    (env : Env) (s : S) :
  (forall a s1, k a env s1 = k' a env s1) -> bind m k env s = bind m k' env s.
Proof.
  intros H. unfold bind. destruct (m env s) as [[[a| |] s1] t1]; try reflexivity.
  now rewrite H.
Qed.

Lemma bind_assoc {A B C : Type} (m : Exec S R A) (k : A -> Exec S R B)
    (h : B -> Exec S R C) (env : Env) (s : S) :
  bind (bind m k) h env s = bind m (fun a => bind (k a) h) env s.
Proof.
  unfold bind. destruct (m env s) as [[[a| |] s1] t1]; try reflexivity.
  destruct (k a env s1) as [[[b| |] s2] t2]; try reflexivity.
  destruct (h b env s2) as [[o s3] t3]. now rewrite List.app_assoc.
Qed.

End StatementFacts.

Section LoopFacts.

Context {S : Type}.

Import DiggerExecutor.

Lemma applyLoop_app (d : t S) (pf : option string) (xs ys : list models.Step)
    (env : Env) (s : S) :
  applyLoop d pf (xs ++ ys) env s
  = bind (applyLoop d pf xs) (fun _ => applyLoop d pf ys) env s.
Proof.
  revert s. induction xs as [|x xs IH]; intros s.
  - cbn [applyLoop List.app]. now rewrite bind_next_l.
  - cbn [applyLoop List.app]. rewrite bind_assoc. apply bind_ext.
    intros _ s1. apply IH.
Qed.

Lemma planLoop_app (d : t S) (xs ys : list models.Step) (plan : string)
    (env : Env) (s : S) :
  planLoop d (xs ++ ys) plan env s
  = bind (planLoop d xs plan) (fun plan => planLoop d ys plan) env s.
Proof.
  revert plan s. induction xs as [|x xs IH]; intros plan s.
  - cbn [planLoop List.app]. now rewrite bind_next_l.
  - cbn [planLoop List.app]. rewrite bind_assoc. apply bind_ext.
    intros plan1 s1. apply IH.
Qed.

End LoopFacts.

(** Case analysis on what the innermost calls returned. *)
Ltac innermost x :=
  lazymatch x with
  | context [match _ with _ => _ end] => fail
  | _ => idtac
  end.

Ltac split_cases H :=
  cbv beta iota zeta in H;
  repeat (match type of H with
          | context [match ?x with _ => _ end] => innermost x; destruct x eqn:?
          end; cbv beta iota zeta in H).

Ltac split_goal :=
  cbv beta iota zeta;
  repeat (match goal with
          | |- context [match ?x with _ => _ end] => innermost x; destruct x eqn:?
          end; cbv beta iota zeta).

(** ** A failed apply *)

Section ApplyFailure.

Context {S : Type}.

Import DiggerExecutor.

Lemma applyStep_failure (d : t S) (pf : option string) (step : models.Step)
    (env : Env) (s1 s2 : S) (stdout stderr : string) (e : error) :
  models.Action step = "apply" ->
  terraform.Apply (TerraformExecutor d) (models.ExtraArgs step) pf (CommandEnvVars d) s1
    = ((stdout, stderr, Some e), s2) ->
  let output := if (stderr =? "")%string then afterMarker stdout else stderr in
  let label := utils.GetTerraformOutputAsCollapsibleComment
                 ("Apply for <b>" ++ ProjectNamespace d ++ "#" ++ ProjectName d ++ "</b>") in
  let notice := utils.AsCollapsibleComment "Error during applying." in
  let r1 := reporting.Report (Reporter d) output label s2 in
  let r2 := reporting.Report (Reporter d) e notice (snd r1) in
  applyStep d pf step env s1
  = (Returned (false, Some ("error executing apply: " ++ e)), snd r2,
     ([CallApply (models.ExtraArgs step) pf (CommandEnvVars d) (stdout, stderr, Some e);
       Sanitize CleanupApply true (Some e) stdout stderr;
       CallReport output label (fst r1)]
      ++ printedIfFailed (fst r1) (Some e)
      ++ [CallReport e notice (fst r2)]
      ++ printedIfFailed (fst r2) (Some e))%list).
Proof.
  intros HA HT. cbv zeta.
  unfold applyStep. rewrite HA.
  change ("apply" =? "init")%string with false.
  change ("apply" =? "apply")%string with true.
  cbv iota.
  rewrite bind_next_l.
  unfold cleanupTerraformApply.
  unfold bind at 1. unfold bind at 1. unfold call at 1. rewrite HT. cbv iota beta zeta.
  rewrite cleanup_error.
  set (output := if (stderr =? "")%string then afterMarker stdout else stderr).
  unfold bind, call, emit, must, returns, next.
  destruct (reporting.Report (Reporter d) output _ s2) as [[c1|] s3];
    destruct (reporting.Report (Reporter d) e _ s3) as [[c2|] s4] eqn:E2;
    cbn; rewrite E2; reflexivity.
Qed.

Lemma reports_app (t1 t2 : list Event) :
  reports (t1 ++ t2) = (reports t1 ++ reports t2)%list.
Proof.
  induction t1 as [|ev t1 IH]; [reflexivity|].
  destruct ev; cbn [reports List.app]; now rewrite IH.
Qed.

(** Only an [apply] step reports. *)
Lemma applyStep_no_report (d : t S) (pf : option string) (step : models.Step)
    (env : Env) (s : S) :
  models.Action step <> "apply" -> reports (snd (applyStep d pf step env s)) = [].
Proof.
  intros HA. apply String.eqb_neq in HA.
  unfold applyStep. rewrite HA.
  unfold bind, call, emit, must, getenv, next, returns.
  split_goal; reflexivity.
Qed.

Lemma applyLoop_no_report (d : t S) (pf : option string) (steps : list models.Step)
    (env : Env) (s : S) :
  (forall step, In step steps -> models.Action step <> "apply") ->
  reports (snd (applyLoop d pf steps env s)) = [].
Proof.
  revert s. induction steps as [|step rest IH]; intros s Hno; [reflexivity|].
  cbn [applyLoop]. unfold bind.
  pose proof (applyStep_no_report d pf step env s (Hno step (or_introl eq_refl))) as H1.
  destruct (applyStep d pf step env s) as [[[[]|r|] s1] t1]; cbn in H1 |- *;
    try exact H1.
  pose proof (IH s1 (fun x Hx => Hno x (or_intror Hx))) as H2.
  destruct (applyLoop d pf rest env s1) as [[o s2] t2]. cbn in H2 |- *.
  now rewrite reports_app, H1, H2.
Qed.

Lemma retrievePlan_no_report (d : t S) (env : Env) (s : S) :
  reports (snd (retrievePlan d env s)) = [].
Proof.
  unfold retrievePlan, bind, call, next, returns.
  split_goal; reflexivity.
Qed.

End ApplyFailure.

(** C3.  Let the apply stage reach an [apply] step (the plan was retrieved
    and the steps before it went through) and let the tool's [Apply] return an
    error.  Then [Apply] makes exactly two reports once the tool has returned:
    first the sanitized output (the error output, or the trimmed standard
    output when that is empty) under the label of the project, then the error
    under "Error during applying."; it returns [false] and the error wrapped.
    Whatever the two [Report] calls return is at most printed: it changes
    neither the second report nor the result. *)
Theorem Apply_failure_reports_twice {S : Type} (d : DiggerExecutor.t S) (env : Env)
    (s0 sr s1 s2 : S) (tr tb : list Event) (plansFilename : option string)
    (before after : list models.Step) (step : models.Step)
    (stdout stderr : string) (e : error) :
  DiggerExecutor.applySteps d = (before ++ step :: after)%list ->
  DiggerExecutor.retrievePlan d env s0 = (Next plansFilename, sr, tr) ->
  DiggerExecutor.applyLoop d plansFilename before env sr = (Next tt, s1, tb) ->
  models.Action step = "apply" ->
  terraform.Apply (DiggerExecutor.TerraformExecutor d) (models.ExtraArgs step)
    plansFilename (DiggerExecutor.CommandEnvVars d) s1
    = ((stdout, stderr, Some e), s2) ->
  let output := if (stderr =? "")%string then afterMarker stdout else stderr in
  let label :=
    utils.GetTerraformOutputAsCollapsibleComment
      ("Apply for <b>" ++ DiggerExecutor.ProjectNamespace d ++ "#"
       ++ DiggerExecutor.ProjectName d ++ "</b>") in
  let notice := utils.AsCollapsibleComment "Error during applying." in
  let r1 := reporting.Report (DiggerExecutor.Reporter d) output label s2 in
  let r2 := reporting.Report (DiggerExecutor.Reporter d) e notice (snd r1) in
  let after_tool :=
    ([CallReport output label (fst r1)]
     ++ printedIfFailed (fst r1) (Some e)
     ++ [CallReport e notice (fst r2)]
     ++ printedIfFailed (fst r2) (Some e))%list in
  DiggerExecutor.Apply d env s0
  = (Some (false, Some ("error executing apply: " ++ e)), snd r2,
     (tr ++ tb
      ++ [CallApply (models.ExtraArgs step) plansFilename
            (DiggerExecutor.CommandEnvVars d) (stdout, stderr, Some e);
          Sanitize CleanupApply true (Some e) stdout stderr]
      ++ after_tool)%list) /\
  reports after_tool = [(output, label); (e, notice)] /\
  ((forall x, In x before -> models.Action x <> "apply") ->
   reports (snd (DiggerExecutor.Apply d env s0)) = [(output, label); (e, notice)]).
Proof.
  intros Hsteps Hret Hbefore HA HT output label notice r1 r2 after_tool.
  assert (Htwo : reports after_tool = [(output, label); (e, notice)]).
  { subst after_tool. destruct (fst r1), (fst r2); reflexivity. }
  match goal with |- ?A /\ _ => assert (Hrun : A) end.
  { subst after_tool r2 r1 notice label output.
    unfold DiggerExecutor.Apply, func.
    rewrite (bind_Next _ _ _ _ _ _ _ Hret), Hsteps.
    unfold bind at 1.
    rewrite applyLoop_app, (bind_Next _ _ _ _ _ _ _ Hbefore).
    cbn [DiggerExecutor.applyLoop].
    rewrite (bind_Returned _ _ _ _ _ _ _
               (applyStep_failure d plansFilename step env s1 s2 stdout stderr e HA HT)).
    cbv zeta. cbn [List.app]. reflexivity. }
  split; [exact Hrun|]. split; [exact Htwo|].
  intros Hno. rewrite Hrun. cbn [snd].
  pose proof (retrievePlan_no_report d env s0) as Hr. rewrite Hret in Hr.
  pose proof (applyLoop_no_report d plansFilename before env sr Hno) as Hb.
  rewrite Hbefore in Hb. cbn [snd] in Hr, Hb.
  rewrite !reports_app, Hr, Hb. exact Htwo.
Qed.

Lemma Apply_failure_reports_twice_witness :
  DiggerExecutor.Apply failingApply (environ []) tt
  = (Some (false, Some "error executing apply: exit status 1"), tt,
     [CallInit [] [] None;
      CallApply [] None [] ("", "Error: some failure", Some "exit status 1");
      Sanitize CleanupApply true (Some "exit status 1") "" "Error: some failure";
      CallReport "Error: some failure"
        (utils.GetTerraformOutputAsCollapsibleComment "Apply for <b>org/repo#prod</b>")
        (Some "no network");
      Printed "error publishing comment: exit status 1";
      CallReport "exit status 1" (utils.AsCollapsibleComment "Error during applying.")
        (Some "no network");
      Printed "error publishing comment: exit status 1"]) /\
  reports
    [CallReport "Error: some failure"
       (utils.GetTerraformOutputAsCollapsibleComment "Apply for <b>org/repo#prod</b>")
       (Some "no network");
     Printed "error publishing comment: exit status 1";
     CallReport "exit status 1" (utils.AsCollapsibleComment "Error during applying.")
       (Some "no network");
     Printed "error publishing comment: exit status 1"]
  = [("Error: some failure",
      utils.GetTerraformOutputAsCollapsibleComment "Apply for <b>org/repo#prod</b>");
     ("exit status 1", utils.AsCollapsibleComment "Error during applying.")] /\
  reports (snd (DiggerExecutor.Apply failingApply (environ []) tt))
  = [("Error: some failure",
      utils.GetTerraformOutputAsCollapsibleComment "Apply for <b>org/repo#prod</b>");
     ("exit status 1", utils.AsCollapsibleComment "Error during applying.")].
Proof.
  destruct (Apply_failure_reports_twice failingApply (environ []) tt tt tt tt
              [] [CallInit [] [] None] None [models.action "init"] []
              (models.action "apply") "" "Error: some failure" "exit status 1"
              eq_refl eq_refl eq_refl eq_refl eq_refl) as (H1 & H2 & H3).
  split; [exact H1|]. split; [exact H2|].
  apply H3. intros x [<-|[]]. discriminate.
Defined.

(** ** The plan stage *)

Section PlanStepFacts.

Context {S : Type}.

Import DiggerExecutor.

Local Arguments String.eqb : simpl never.
Local Arguments cleanupTerraformPlan : simpl never.
Local Arguments append : simpl never.

Lemma lastPlanCall_app (t1 t2 : list Event) :
  lastPlanCall (t1 ++ t2)
  = match lastPlanCall t2 with Some r => Some r | None => lastPlanCall t1 end.
Proof.
  induction t1 as [|ev t1 IH]; simpl.
  - now destruct (lastPlanCall t2).
  - rewrite IH. now destruct (lastPlanCall t2).
Qed.

(** A plan step whose tool call fails returns at once. *)
Lemma planStep_failure (d : t S) (step : models.Step) (plan : string)
    (env : Env) (s1 s2 : S) (ne : bool) (stdout stderr : string) (e : error) :
  models.Action step = "plan" ->
  let planArgs :=
    (["-out"; PlanPathProvider.PlanFileName (PlanPathProvider d)]
     ++ models.ExtraArgs step)%list in
  terraform.Plan (TerraformExecutor d) planArgs (CommandEnvVars d) s1
    = ((ne, stdout, stderr, Some e), s2) ->
  planStep d step plan env s1
  = (Returned (false, "", Some ("error executing plan: " ++ e)), s2,
     [CallPlan planArgs (CommandEnvVars d) (ne, stdout, stderr, Some e)]).
Proof.
  intros HA planArgs HT. subst planArgs.
  unfold planStep. rewrite HA.
  change ("plan" =? "init")%string with false.
  change ("plan" =? "plan")%string with true.
  cbv iota. rewrite bind_next_l.
  unfold bind at 1. unfold bind at 1. unfold call at 1.
  cbv zeta. rewrite HT. cbv iota beta zeta. reflexivity.
Qed.

(** What a step that completes leaves in [plan]. *)
Lemma planStep_Next (d : t S) (step : models.Step) (plan0 p : string)
    (env : Env) (s s' : S) (t : list Event) :
  planStep d step plan0 env s = (Next p, s', t) ->
  (models.Action step <> "plan" /\ lastPlanCall t = None /\ p = plan0) \/
  (models.Action step = "plan" /\
   exists ne stdout stderr,
     lastPlanCall t = Some (ne, stdout, stderr, None) /\
     cleanupTerraformPlan ne None stdout stderr = Some p).
Proof.
  unfold planStep, bind, call, emit, must, getenv, next, returns.
  intros H.
  destruct (String.eqb_spec (models.Action step) "plan") as [HA|HA].
  - right. split; [exact HA|].
    rewrite HA in H.
    change ("plan" =? "init")%string with false in H.
    change ("plan" =? "run")%string with false in H.
    cbv iota zeta in H.
    split_cases H; try discriminate H;
      injection H as <- <- <-; do 3 eexists; (split; [reflexivity | eassumption]).
  - left. split; [exact HA|].
    split_cases H; try discriminate H;
      injection H as <- <- <-; split; reflexivity.
Qed.

(** A plan step that completes began by calling the tool's [Plan] with
    [-out], the plan file and the step's arguments; the call gave no error
    and was the step's only one, and [plan] holds its sanitized output. *)
Lemma planStep_plan_Next (d : t S) (step : models.Step) (plan0 p : string)
    (env : Env) (s s' : S) (t : list Event) :
  models.Action step = "plan" ->
  planStep d step plan0 env s = (Next p, s', t) ->
  exists ne stdout stderr rest,
    t = CallPlan (["-out"; PlanPathProvider.PlanFileName (PlanPathProvider d)]
                  ++ models.ExtraArgs step)
          (CommandEnvVars d) (ne, stdout, stderr, None) :: rest /\
    lastPlanCall rest = None /\
    cleanupTerraformPlan ne None stdout stderr = Some p.
Proof.
  unfold planStep, bind, call, emit, must, getenv, next, returns.
  intros HA H. rewrite HA in H.
  change ("plan" =? "init")%string with false in H.
  change ("plan" =? "plan")%string with true in H.
  change ("plan" =? "run")%string with false in H.
  cbv iota zeta in H.
  split_cases H; try discriminate H;
    injection H as <- <- <-; do 4 eexists;
    (split; [reflexivity | split; [reflexivity | eassumption]]).
Qed.

(** A step never calls the sanitizer with an error. *)
Lemma planStep_sanitize (d : t S) (step : models.Step) (plan : string)
    (env : Env) (s : S) :
  Forall sanitized_without_error (snd (planStep d step plan env s)).
Proof.
  unfold planStep, bind, call, emit, must, getenv, next, returns.
  split_goal; cbn; repeat constructor.
Qed.

(** A [return] inside the loop gives [false], no plan text and an error. *)
Lemma planStep_Returned (d : t S) (step : models.Step) (plan : string)
    (env : Env) (s s' : S) (r : PlanResult) (t : list Event) :
  planStep d step plan env s = (Returned r, s', t) ->
  exists e, r = (false, "", Some e).
Proof.
  unfold planStep, bind, call, emit, must, getenv, next, returns.
  intros H. split_cases H; try discriminate H;
    injection H as <- <- <-; eexists; reflexivity.
Qed.

(** A step with an action [Plan] does not know does nothing. *)
Lemma planStep_unknown (d : t S) (step : models.Step) (plan : string)
    (env : Env) (s : S) :
  unknown_to_Plan step -> planStep d step plan env s = (Next plan, s, []).
Proof.
  intros (H1 & H2 & H3). apply String.eqb_neq in H1, H2, H3.
  unfold planStep. rewrite H1, H2, H3.
  now rewrite !bind_next_l.
Qed.

Lemma planLoop_sanitize (d : t S) (steps : list models.Step) (plan : string)
    (env : Env) (s : S) :
  Forall sanitized_without_error (snd (planLoop d steps plan env s)).
Proof.
  revert plan s. induction steps as [|step rest IH]; intros plan s.
  - constructor.
  - cbn [planLoop]. unfold bind.
    pose proof (planStep_sanitize d step plan env s) as H1.
    destruct (planStep d step plan env s) as [[[p|r|] s1] t1]; cbn in H1 |- *;
      try exact H1.
    pose proof (IH p s1) as H2.
    destruct (planLoop d rest p env s1) as [[o s2] t2]. cbn in H2 |- *.
    now apply Forall_app.
Qed.

Lemma planLoop_Returned (d : t S) (steps : list models.Step) (plan : string)
    (env : Env) (s s' : S) (r : PlanResult) (t : list Event) :
  planLoop d steps plan env s = (Returned r, s', t) ->
  exists e, r = (false, "", Some e).
Proof.
  revert plan s t. induction steps as [|step rest IH]; intros plan s t.
  - discriminate.
  - cbn [planLoop]. unfold bind.
    destruct (planStep d step plan env s) as [[[p|r0|] s1] t1] eqn:E.
    + destruct (planLoop d rest p env s1) as [[o s2] t2] eqn:E2.
      intros [= -> <- <-]. now apply IH in E2.
    + intros [= <- <- <-]. now apply planStep_Returned in E.
    + discriminate.
Qed.

(** After the loop, [plan] holds the sanitized output of the last [Plan] call,
    or what it held before when there was none. *)
Lemma planLoop_Next (d : t S) (steps : list models.Step) (plan0 p : string)
    (env : Env) (s s' : S) (t : list Event) :
  planLoop d steps plan0 env s = (Next p, s', t) ->
  match lastPlanCall t with
  | None => p = plan0 /\ forall step, In step steps -> models.Action step <> "plan"
  | Some (ne, stdout, stderr, err) =>
      err = None /\ cleanupTerraformPlan ne None stdout stderr = Some p
  end.
Proof.
  revert plan0 s t. induction steps as [|step rest IH]; intros plan0 s t.
  - intros [= <- <- <-]. simpl. now split.
  - cbn [planLoop]. unfold bind.
    destruct (planStep d step plan0 env s) as [[[p1|r0|] s1] t1] eqn:E;
      try discriminate.
    destruct (planLoop d rest p1 env s1) as [[o s2] t2] eqn:E2.
    intros [= -> <- <-]. apply IH in E2. rewrite lastPlanCall_app.
    destruct (lastPlanCall t2) as [[[[ne so] se] err]|]; [exact E2|].
    destruct E2 as [-> Hrest].
    apply planStep_Next in E as [(HA & -> & ->) | (HA & ne & so & se & -> & Hc)].
    + split; [reflexivity|]. intros x [<-|Hx]; [exact HA | now apply Hrest].
    + now split.
Qed.

Lemma planLoop_unknown (d : t S) (steps : list models.Step) (plan : string)
    (env : Env) (s : S) :
  Forall unknown_to_Plan steps -> planLoop d steps plan env s = (Next plan, s, []).
Proof.
  induction 1 as [|step rest Hstep _ IH]; [reflexivity|].
  cbn [planLoop]. unfold bind. now rewrite (planStep_unknown _ _ _ _ _ Hstep), IH.
Qed.

End PlanStepFacts.

Section PlanFacts.

Context {S : Type}.

Import DiggerExecutor.

Lemma planLoop_no_plan_step (d : t S) (steps : list models.Step) (plan0 p : string)
    (env : Env) (s s' : S) (t : list Event) :
  (forall step, In step steps -> models.Action step <> "plan") ->
  planLoop d steps plan0 env s = (Next p, s', t) ->
  p = plan0 /\ lastPlanCall t = None.
Proof.
  revert plan0 s t. induction steps as [|step rest IH]; intros plan0 s t Hno.
  - intros [= <- <- <-]. now split.
  - cbn [planLoop]. unfold bind.
    destruct (planStep d step plan0 env s) as [[[p1|r0|] s1] t1] eqn:E;
      try discriminate.
    destruct (planLoop d rest p1 env s1) as [[o s2] t2] eqn:E2.
    intros [= -> <- <-].
    apply IH in E2 as [-> Ht2]; [|intros x Hx; apply Hno; now right].
    rewrite lastPlanCall_app, Ht2.
    apply planStep_Next in E as [(_ & -> & ->) | (HA & _)]; [now split|].
    now elim (Hno step (or_introl eq_refl)).
Qed.

(** After the loop, [plan] holds the sanitized output of the call made by
    the last plan step among the steps. *)
Lemma planLoop_last_plan_step (d : t S) (before after : list models.Step)
    (step : models.Step) (plan0 p : string) (env : Env) (s s' : S) (t : list Event) :
  models.Action step = "plan" ->
  (forall x, In x after -> models.Action x <> "plan") ->
  planLoop d (before ++ step :: after) plan0 env s = (Next p, s', t) ->
  exists t1 ne stdout stderr t2,
    t = (t1 ++ CallPlan (["-out"; PlanPathProvider.PlanFileName (PlanPathProvider d)]
                         ++ models.ExtraArgs step)
                 (CommandEnvVars d) (ne, stdout, stderr, None) :: t2)%list /\
    lastPlanCall t2 = None /\
    cleanupTerraformPlan ne None stdout stderr = Some p.
Proof.
  intros HA Hno. rewrite planLoop_app. unfold bind at 1.
  destruct (planLoop d before plan0 env s) as [[[p1|r|] s1] t1] eqn:E1;
    try discriminate.
  cbn [planLoop]. unfold bind.
  destruct (planStep d step p1 env s1) as [[[p2|r|] s2] ts] eqn:E2;
    try discriminate.
  destruct (planLoop d after p2 env s2) as [[o s3] t3] eqn:E3.
  intros [= -> <- <-].
  apply (planLoop_no_plan_step d _ _ _ _ _ _ _ Hno) in E3 as [-> Ht3].
  apply (planStep_plan_Next d _ _ _ _ _ _ _ HA) in E2
    as (ne & so & se & rest & -> & Hrest & Hc).
  exists t1, ne, so, se, (rest ++ t3)%list.
  split; [reflexivity|]. split; [|exact Hc].
  now rewrite lastPlanCall_app, Ht3.
Qed.

(** [Plan] in terms of its loop. *)
Lemma Plan_unfold (d : t S) (env : Env) (s : S) :
  Plan d env s
  = match planLoop d (planSteps d) "" env s with
    | (Next plan, s', t) => (Some (true, plan, None), s', t)
    | (Returned r, s', t) => (Some r, s', t)
    | (Panic, s', t) => (None, s', t)
    end.
Proof.
  unfold Plan, func, bind, returns.
  destruct (planLoop d (planSteps d) "" env s) as [[[p|r|] s'] t]; try reflexivity.
  now rewrite List.app_nil_r.
Qed.

End PlanFacts.

(** C6, counterexample.  The tool's [Plan] returns an error; [Plan] returns
    at once with no plan text, and the sanitizer is not called at all, so
    neither output of the tool gets into the result. *)
Lemma Plan_tool_error_skips_sanitizer :
  DiggerExecutor.Plan failingPlan (environ []) tt
  = (Some (false, "", Some "error executing plan: exit status 1"), tt,
     [CallInit [] [] None;
      CallPlan ["-out"; "org:repo#prod.tfplan"] []
        (true, "Planning failed.", "Error: no credentials", Some "exit status 1")]) /\
  forall mode ne err stdout stderr,
    ~ In (Sanitize mode ne err stdout stderr)
         (snd (DiggerExecutor.Plan failingPlan (environ []) tt)).
Proof.
  split; [reflexivity|].
  intros mode ne err stdout stderr [H|[H|[]]]; discriminate H.
Qed.

(** C6, as the code has it.  Let the plan stage reach a [plan] step and let
    the tool's [Plan] return an error.  Then [Plan] returns at once with
    [false], no plan text and the error wrapped; after the tool call nothing
    else happens: no storage call, no call of the sanitizer, no later step.
    And in every run of [Plan] the sanitizer is only ever called without an
    error. *)
Theorem Plan_tool_error_returns_at_once {S : Type} (d : DiggerExecutor.t S) (env : Env)
    (s0 s1 s2 : S) (t1 : list Event) (before after : list models.Step)
    (step : models.Step) (plan1 : string)
    (ne : bool) (stdout stderr : string) (e : error) :
  DiggerExecutor.planSteps d = (before ++ step :: after)%list ->
  DiggerExecutor.planLoop d before "" env s0 = (Next plan1, s1, t1) ->
  models.Action step = "plan" ->
  terraform.Plan (DiggerExecutor.TerraformExecutor d)
    (["-out"; PlanPathProvider.PlanFileName (DiggerExecutor.PlanPathProvider d)]
     ++ models.ExtraArgs step)%list
    (DiggerExecutor.CommandEnvVars d) s1
    = ((ne, stdout, stderr, Some e), s2) ->
  DiggerExecutor.Plan d env s0
  = (Some (false, "", Some ("error executing plan: " ++ e)), s2,
     (t1 ++ [CallPlan
               (["-out"; PlanPathProvider.PlanFileName (DiggerExecutor.PlanPathProvider d)]
                ++ models.ExtraArgs step)
               (DiggerExecutor.CommandEnvVars d)
               (ne, stdout, stderr, Some e)])%list) /\
  forall env' s', Forall sanitized_without_error (snd (DiggerExecutor.Plan d env' s')).
Proof.
  intros Hsteps Hbefore HA HT. split.
  - rewrite Plan_unfold, Hsteps, planLoop_app, (bind_Next _ _ _ _ _ _ _ Hbefore).
    cbn [DiggerExecutor.planLoop].
    now rewrite (bind_Returned _ _ _ _ _ _ _
                   (planStep_failure d step plan1 env s1 s2 ne stdout stderr e HA HT)).
  - intros env' s'. rewrite Plan_unfold.
    pose proof (planLoop_sanitize d (DiggerExecutor.planSteps d) "" env' s') as H.
    now destruct (DiggerExecutor.planLoop d (DiggerExecutor.planSteps d) "" env' s')
      as [[[p|r|] s''] t].
Qed.

Lemma Plan_tool_error_returns_at_once_witness :
  DiggerExecutor.Plan failingPlan (environ []) tt
  = (Some (false, "", Some ("error executing plan: " ++ "exit status 1")), tt,
     ([CallInit [] [] None]
      ++ [CallPlan (["-out"; "org:repo#prod.tfplan"] ++ []) []
            (true, "Planning failed.", "Error: no credentials", Some "exit status 1")])%list) /\
  forall env' s',
    Forall sanitized_without_error (snd (DiggerExecutor.Plan failingPlan env' s')).
Proof.
  exact (Plan_tool_error_returns_at_once failingPlan (environ []) tt tt tt
           [CallInit [] [] None] [models.action "init"] [] (models.action "plan") ""
           true "Planning failed." "Error: no credentials" "exit status 1"
           eq_refl eq_refl eq_refl eq_refl).
Defined.

(** C10.  A plan stage whose steps all have actions [Plan] does not know
    returns [(true, "", nil)] and does nothing.  And whenever [Plan] returns
    [true], the error is [nil] and the plan text is the sanitized output of
    the last [Plan] call of the tool, which gave no error (what earlier plan
    steps left is overwritten); the tool's [Plan] was never called only when
    the stage has no plan step, and then, and whenever the stage has no plan
    step, the text is empty.  When the stage has a plan step, the last of
    them called the tool's [Plan] with [-out], the plan file and its own
    arguments, no call of the tool's [Plan] came after that one, and the
    text is the sanitized output of that call.  The steps are those of the
    plan stage, or [init] and [plan] when there is none. *)
Theorem Plan_success_plan_text {S : Type} (d : DiggerExecutor.t S) (env : Env) (s : S) :
  (Forall unknown_to_Plan (DiggerExecutor.planSteps d) ->
   DiggerExecutor.Plan d env s = (Some (true, "", None), s, [])) /\
  (forall (s' : S) (plan : string) (err : option error) (t : list Event),
    DiggerExecutor.Plan d env s = (Some (true, plan, err), s', t) ->
    err = None /\
    match lastPlanCall t with
    | Some (ne, stdout, stderr, planErr) =>
        planErr = None /\ cleanupTerraformPlan ne None stdout stderr = Some plan
    | None =>
        plan = "" /\
        forall step, In step (DiggerExecutor.planSteps d) -> models.Action step <> "plan"
    end /\
    ((forall step, In step (DiggerExecutor.planSteps d) -> models.Action step <> "plan") ->
     plan = "" /\ lastPlanCall t = None) /\
    (forall (before after : list models.Step) (step : models.Step),
       DiggerExecutor.planSteps d = (before ++ step :: after)%list ->
       models.Action step = "plan" ->
       (forall x, In x after -> models.Action x <> "plan") ->
       exists t1 ne stdout stderr t2,
         t = (t1 ++ CallPlan
                      (["-out";
                        PlanPathProvider.PlanFileName (DiggerExecutor.PlanPathProvider d)]
                       ++ models.ExtraArgs step)
                      (DiggerExecutor.CommandEnvVars d) (ne, stdout, stderr, None)
                    :: t2)%list /\
         lastPlanCall t2 = None /\
         cleanupTerraformPlan ne None stdout stderr = Some plan)) /\
  DiggerExecutor.planSteps d
  = match DiggerExecutor.PlanStage d with
    | Some stage => models.Steps stage
    | None => [models.action "init"; models.action "plan"]
    end.
Proof.
  split; [|split; [|reflexivity]].
  - intros H. rewrite Plan_unfold. now rewrite (planLoop_unknown d _ "" env s H).
  - intros s' plan err t. rewrite Plan_unfold.
    destruct (DiggerExecutor.planLoop d (DiggerExecutor.planSteps d) "" env s)
      as [[[p|r|] s1] t1] eqn:E.
    + intros [= <- <- <- <-]. split; [reflexivity|]. split; [|split].
      * apply planLoop_Next in E.
        destruct (lastPlanCall t1) as [[[[ne so] se] perr]|]; exact E.
      * intros Hno. now apply (planLoop_no_plan_step d _ _ _ _ _ _ _ Hno E).
      * intros before after step Hsteps HA Hno. rewrite Hsteps in E.
        exact (planLoop_last_plan_step d before after step "" p env s s1 t1 HA Hno E).
    + intros [= -> <- <-]. apply planLoop_Returned in E as [e E]. discriminate E.
    + discriminate.
Qed.

Lemma Plan_success_plan_text_witness :
  DiggerExecutor.Plan validateOnly (environ []) tt = (Some (true, "", None), tt, []) /\
  (DiggerExecutor.Plan planTwice (environ []) tt
   = (Some (true, planOneRuleClean, None), tt,
      [CallPlan ["-out"; "org:repo#prod.tfplan"] [] (true, planOneRule, "", None);
       Sanitize CleanupPlan true None planOneRule "";
       CallPlan ["-out"; "org:repo#prod.tfplan"] [] (true, planOneRule, "", None);
       Sanitize CleanupPlan true None planOneRule ""]) /\
   cleanupTerraformPlan true None planOneRule "" = Some planOneRuleClean) /\
  (DiggerExecutor.Plan lintOnly (environ []) tt
   = (Some (true, "", None), tt,
      [Logged ("Running make lint for **org/repo#prod**" ++ nl);
       CallRun "dev" "bash" ["make lint"] None]) /\
   lastPlanCall
     [Logged ("Running make lint for **org/repo#prod**" ++ nl);
      CallRun "dev" "bash" ["make lint"] None] = None) /\
  (DiggerExecutor.Plan planTwoTargets (environ []) tt
   = (Some (true, "-out org:repo#prod.tfplan -target=b", None), tt,
      [CallPlan ["-out"; "org:repo#prod.tfplan"; "-target=a"] []
         (true, "-out org:repo#prod.tfplan -target=a", "", None);
       Sanitize CleanupPlan true None "-out org:repo#prod.tfplan -target=a" "";
       CallPlan ["-out"; "org:repo#prod.tfplan"; "-target=b"] []
         (true, "-out org:repo#prod.tfplan -target=b", "", None);
       Sanitize CleanupPlan true None "-out org:repo#prod.tfplan -target=b" "";
       CallInit [] [] None]) /\
   exists t1 ne stdout stderr t2,
     [CallPlan ["-out"; "org:repo#prod.tfplan"; "-target=a"] []
        (true, "-out org:repo#prod.tfplan -target=a", "", None);
      Sanitize CleanupPlan true None "-out org:repo#prod.tfplan -target=a" "";
      CallPlan ["-out"; "org:repo#prod.tfplan"; "-target=b"] []
        (true, "-out org:repo#prod.tfplan -target=b", "", None);
      Sanitize CleanupPlan true None "-out org:repo#prod.tfplan -target=b" "";
      CallInit [] [] None]
     = (t1 ++ CallPlan (["-out"; "org:repo#prod.tfplan"] ++ ["-target=b"]) []
                (ne, stdout, stderr, None) :: t2)%list /\
     lastPlanCall t2 = None /\
     cleanupTerraformPlan ne None stdout stderr
     = Some "-out org:repo#prod.tfplan -target=b").
Proof.
  split; [|split; [|split]].
  - apply (proj1 (Plan_success_plan_text validateOnly (environ []) tt)).
    repeat constructor; discriminate.
  - split; [reflexivity|].
    exact (proj2 (proj1 (proj2 (proj1 (proj2 (Plan_success_plan_text planTwice (environ []) tt))
                                  tt planOneRuleClean None _ eq_refl)))).
  - split; [reflexivity|].
    apply (proj1 (proj2 (proj2 (proj1 (proj2 (Plan_success_plan_text lintOnly (environ []) tt))
                                   tt "" None _ eq_refl)))).
    intros step [<-|[]]. discriminate.
  - split; [reflexivity|].
    apply (proj2 (proj2 (proj2 (proj1 (proj2 (Plan_success_plan_text planTwoTargets
                                                (environ []) tt))
                                   tt "-out org:repo#prod.tfplan -target=b" None _ eq_refl)))
             [ {| models.Action := "plan"; models.ExtraArgs := ["-target=a"];
                  models.Value := ""; models.Shell := "" |};
               models.action "validate" ]
             [ models.action "init" ]
             {| models.Action := "plan"; models.ExtraArgs := ["-target=b"];
                models.Value := ""; models.Shell := "" |}).
    + reflexivity.
    + reflexivity.
    + intros x [<-|[]]. discriminate.
Defined.

(** ** The run step in the two stages *)

(** C7.  With [ACTIVATE_VENV] set to [true], [Plan] activates the environment
    under [GITHUB_WORKSPACE] and [Apply] the one under the project path: the
    same run step gives two different command lists. *)
Lemma run_step_activation_differs :
  DiggerExecutor.Plan
    (prodExecutor (Some runStage) None
       (fixedTerraform None (true, "", "", None) ("", "", None)) (fixedReporter None))
    venvEnv tt
  = (Some (true, "", None), tt,
     [Logged ("Running make lint for **org/repo#prod**" ++ nl);
      CallRun "dev" "bash"
        ["source /home/runner/work/repo/.venv/bin/activate"; "make lint"] None]) /\
  DiggerExecutor.Apply
    (prodExecutor None (Some runStage)
       (fixedTerraform None (true, "", "", None) ("", "", None)) (fixedReporter None))
    venvEnv tt
  = (Some (true, None), tt,
     [Logged ("Running make lint for **org/repo#prod**" ++ nl);
      CallRun "dev" "bash" ["source dev/.venv/bin/activate"; "make lint"] None]).
Proof. split; reflexivity. Qed.

Section StageSteps.

Context {S : Type}.

Import DiggerExecutor.


(** X2.  An [init] step that fails ends [Apply]: the result is [false] with the
    error wrapped, and the call of [Init] is the last event, so no later step
    of the stage runs. *)
Theorem Apply_init_failure_aborts (d : t S) (env : Env) (s0 sr s1 s2 : S)
    (tr tb : list Event) (plansFilename : option string)
    (before after : list models.Step) (step : models.Step)
    (out errout : string) (e : error) :
  applySteps d = (before ++ step :: after)%list ->
  retrievePlan d env s0 = (Next plansFilename, sr, tr) ->
  applyLoop d plansFilename before env sr = (Next tt, s1, tb) ->
  models.Action step = "init" ->
  terraform.Init (TerraformExecutor d) (models.ExtraArgs step) (StateEnvVars d) s1
    = ((out, errout, Some e), s2) ->
  Apply d env s0
  = (Some (false, Some ("error running init: " ++ e)), s2,
     (tr ++ tb ++ [CallInit (models.ExtraArgs step) (StateEnvVars d) (Some e)])%list).
Proof.
  intros Hsteps Hret Hbefore HA HT.
  assert (Hstep : applyStep d plansFilename step env s1
                  = (Returned (false, Some ("error running init: " ++ e)), s2,
                     [CallInit (models.ExtraArgs step) (StateEnvVars d) (Some e)])).
  { unfold applyStep. rewrite HA.
    change ("init" =? "init")%string with true. cbv iota.
    unfold bind at 1. unfold bind at 1. unfold call at 1. rewrite HT. reflexivity. }
  unfold Apply, func.
  rewrite (bind_Next _ _ _ _ _ _ _ Hret), Hsteps.
  unfold bind at 1.
  rewrite applyLoop_app, (bind_Next _ _ _ _ _ _ _ Hbefore).
  cbn [applyLoop]. now rewrite (bind_Returned _ _ _ _ _ _ _ Hstep).
Qed.

End StageSteps.

Lemma Apply_init_failure_aborts_witness :
  DiggerExecutor.Apply failingInit (environ []) tt
  = (Some (false, Some ("error running init: " ++ "exit status 1")), tt,
     ([] ++ [] ++ [CallInit [] [] (Some "exit status 1")])%list).
Proof.
  exact (Apply_init_failure_aborts failingInit (environ []) tt tt tt tt [] [] None
           [] [models.action "apply"] (models.action "init") "" "" "exit status 1"
           eq_refl eq_refl eq_refl eq_refl eq_refl).
Defined.


(** * Further properties of the sanitizer *)

Section SanitizerMore.

Local Arguments prefix : simpl never.

Lemma startAnchor_nonempty (ne : bool) : (0 < String.length (startAnchor ne))%nat.
Proof. destruct ne; vm_compute; lia. Qed.

(** The trimmed output begins with the marker or holds none: trimming it again
    changes nothing. *)
Lemma afterMarker_idem (stdout : string) : afterMarker (afterMarker stdout) = afterMarker stdout.
Proof.
  unfold afterMarker at 2 3.
  destruct (strings.index_nat backendMarker stdout) as [n|] eqn:E.
  - apply index_nat_Some in E as [E _]. apply OccursAt_drop in E as [_ E].
    apply afterMarker_fixed. now rewrite (Index_prefix _ _ E).
  - unfold afterMarker. now rewrite E.
Qed.

Lemma afterMarker_nil (stdout : string) : afterMarker stdout = "" -> stdout = "".
Proof.
  unfold afterMarker.
  destruct (strings.index_nat backendMarker stdout) as [n|] eqn:E; [|easy].
  intros H. apply index_nat_Some in E as [E _]. apply OccursAt_drop in E as [_ E].
  rewrite H in E. discriminate E.
Qed.

Lemma drop_app_le (n : nat) (a b : string) :
  (n <= String.length a)%nat -> drop n (a ++ b) = drop n a ++ b.
Proof.
  revert a. induction n as [|n IH]; intros [|c a] H; simpl in *; try reflexivity; try lia.
  apply IH. lia.
Qed.

(** Without an error the result is the checked slice of the trimmed output
    between the two positions, which exists. *)
Lemma cleanup_nil_Some (ne : bool) (stdout stderr : string) (re : option Regexp) :
  let s := afterMarker stdout in
  let a := startPosOf ne s in
  let g := guardedEnd a (endPosOf re s) s in
  exists r, cleanupTerraformOutput ne None stdout stderr re = Some r /\
            slice s a g = Some r /\ 0 <= a <= g /\ g <= len s.
Proof.
  cbv zeta. rewrite cleanup_nil. cbv zeta.
  set (s := afterMarker stdout).
  pose proof (startPosOf_range ne s) as Ha.
  pose proof (endPosOf_range re s) as He.
  pose proof (guardedEnd_range _ _ s Ha He) as Hg.
  destruct (slice_total s (startPosOf ne s) (guardedEnd (startPosOf ne s) (endPosOf re s) s))
    as [r Hr]; [lia | lia |].
  exists r. repeat split; try assumption; lia.
Qed.

End SanitizerMore.

(** X3.  With an error the sanitizer ignores the flag, the pattern and the
    error's text: it returns the error output when that is not empty, and
    otherwise the standard output from the first marker on (the marker trim
    is applied on this path too). *)
Theorem cleanupTerraformOutput_error_path
    (nonEmptyChange nonEmptyChange' : bool) (e e' : error)
    (stdout stderr : string) (trailingPattern trailingPattern' : option Regexp) :
  cleanupTerraformOutput nonEmptyChange (Some e) stdout stderr trailingPattern
    = cleanupTerraformOutput nonEmptyChange' (Some e') stdout stderr trailingPattern' /\
  cleanupTerraformOutput nonEmptyChange (Some e) stdout stderr trailingPattern
    = Some (if (stderr =? "")%string then afterMarker stdout else stderr).
Proof. rewrite !cleanup_error. now split. Qed.

(** X4.  What stands before the first marker never matters: the sanitizer
    gives the same result on the output and on the output cut at the
    marker. *)
Theorem cleanupTerraformOutput_ignores_before_marker
    (nonEmptyChange : bool) (operationError : option error)
    (stdout stderr : string) (trailingPattern : option Regexp) :
  cleanupTerraformOutput nonEmptyChange operationError stdout stderr trailingPattern
  = cleanupTerraformOutput nonEmptyChange operationError (afterMarker stdout) stderr
      trailingPattern.
Proof.
  destruct operationError as [e|].
  - now rewrite !cleanup_error, afterMarker_idem.
  - now rewrite !cleanup_nil, afterMarker_idem.
Qed.

(** X5.  Without an error and without a pattern (the apply mode) nothing is cut
    at the end: the result is an end piece of the output.  It begins with the
    anchor when the trimmed output holds the anchor, and is the whole trimmed
    output otherwise. *)
Theorem cleanupTerraformApply_suffix (nonEmptyChange : bool) (stdout stderr : string) :
  exists r pre,
    cleanupTerraformApply nonEmptyChange None stdout stderr = Some r /\
    stdout = pre ++ r /\
    if strings.Index (afterMarker stdout) (startAnchor nonEmptyChange) =? -1
    then r = afterMarker stdout
    else prefix (startAnchor nonEmptyChange) r = true.
Proof.
  unfold cleanupTerraformApply. rewrite cleanup_nil. cbv zeta.
  set (s := afterMarker stdout).
  assert (Hg : guardedEnd (startPosOf nonEmptyChange s) (endPosOf None s) s = len s).
  { unfold guardedEnd, endPosOf. now destruct (len s <=? startPosOf nonEmptyChange s). }
  rewrite Hg. destruct (afterMarker_suffix stdout) as [pre0 Hpre0]. fold s in Hpre0.
  unfold startPosOf. cbv zeta.
  destruct (Z.eqb_spec (strings.Index s (startAnchor nonEmptyChange)) (-1)) as [E|N].
  - exists s, pre0. split; [apply slice_all | now split].
  - destruct (Index_found _ _ _ eq_refl N) as (n & Hn & Hocc & _). rewrite Hn.
    pose proof (OccursAt_bound _ _ _ Hocc) as Hb.
    apply OccursAt_drop in Hocc as [Hle Hp].
    exists (drop n s), (pre0 ++ take n s). split; [apply slice_from; lia|]. split.
    + now rewrite app_assoc, take_drop.
    + exact Hp.
Qed.

(** X6.  Without an error the sanitizer returns the empty string for the
    empty output only: the guard on the end position keeps the slice from
    being empty. *)
Theorem cleanupTerraformOutput_empty_iff
    (nonEmptyChange : bool) (stdout stderr : string) (trailingPattern : option Regexp) :
  cleanupTerraformOutput nonEmptyChange None stdout stderr trailingPattern = Some ""
  <-> stdout = "".
Proof.
  destruct (cleanup_nil_Some nonEmptyChange stdout stderr trailingPattern)
    as (r & Hr & Hs & Ha & Hg).
  set (s := afterMarker stdout) in *.
  set (a := startPosOf nonEmptyChange s) in *.
  split.
  - intros H. rewrite H in Hr. injection Hr as <-.
    apply slice_Some in Hs as (k & Hk & _ & Hhi). change (len "") with 0 in Hhi.
    apply afterMarker_nil. fold s. apply length_zero.
    assert (Hlen : len s = a).
    { revert Hhi. unfold guardedEnd.
      destruct (Z.leb_spec (endPosOf trailingPattern s) a); lia. }
    assert (Ha0 : a = 0).
    { subst a. unfold startPosOf in *. cbv zeta in *.
      destruct (Z.eqb_spec (strings.Index s (startAnchor nonEmptyChange)) (-1)) as [|N];
        [reflexivity|].
      destruct (Index_found _ _ _ eq_refl N) as (n & Hn & Hocc & _).
      apply OccursAt_bound in Hocc.
      pose proof (startAnchor_nonempty nonEmptyChange). unfold len in Hlen. lia. }
    unfold len in Hlen. lia.
  - intros ->. rewrite Hr. f_equal.
    apply slice_Some in Hs as (k & _ & Hocc & _).
    apply OccursAt_bound in Hocc. subst s. change (afterMarker "") with "" in Hocc.
    apply length_zero. simpl in Hocc. lia.
Qed.

(** X7.  A pattern that matches nothing in the trimmed output is as good as no
    pattern: the plan mode then gives what the apply mode gives. *)
Theorem cleanupTerraformOutput_no_match
    (nonEmptyChange : bool) (operationError : option error)
    (stdout stderr : string) (regex : Regexp) :
  FindStringSubmatch regex (afterMarker stdout) = [] ->
  cleanupTerraformOutput nonEmptyChange operationError stdout stderr (Some regex)
  = cleanupTerraformOutput nonEmptyChange operationError stdout stderr None.
Proof.
  intros F. destruct operationError as [e|].
  - now rewrite !cleanup_error.
  - rewrite !cleanup_nil. cbv zeta. unfold endPosOf. now rewrite F.
Qed.

Lemma cleanupTerraformOutput_no_match_witness :
  cleanupTerraformPlan false None (noChangesAnchor ++ nl ++ "Done.") ""
  = cleanupTerraformApply false None (noChangesAnchor ++ nl ++ "Done.") "".
Proof.
  exact (cleanupTerraformOutput_no_match false None (noChangesAnchor ++ nl ++ "Done.") ""
           (literal_dotplus planRule) eq_refl).
Defined.

(** X8.  When the pattern matches and the last occurrence of the matched text
    does not begin before the start position, the result ends with that text:
    the matched line is kept, and only what follows it is cut. *)
Theorem cleanupTerraformOutput_keeps_match
    (nonEmptyChange : bool) (stdout stderr : string) (regex : Regexp)
    (m : string) (groups : list string) :
  FindStringSubmatch regex (afterMarker stdout) = m :: groups ->
  startPosOf nonEmptyChange (afterMarker stdout) <= strings.LastIndex (afterMarker stdout) m ->
  exists pre,
    cleanupTerraformOutput nonEmptyChange None stdout stderr (Some regex) = Some (pre ++ m).
Proof.
  intros F Hle.
  destruct (cleanup_nil_Some nonEmptyChange stdout stderr (Some regex))
    as (r & Hr & Hs & Ha & Hg).
  set (s := afterMarker stdout) in *.
  set (a := startPosOf nonEmptyChange s) in *.
  pose proof (FindStringSubmatch_text _ _ _ _ F) as Hsub.
  destruct (LastIndex_found _ _ Hsub) as (n & HL & (p & q & Hpq & Hp) & Hmax).
  rewrite HL in Hle.
  assert (He : endPosOf (Some regex) s = Z.of_nat n + len m).
  { unfold endPosOf. now rewrite F, HL. }
  rewrite He in Hs. unfold guardedEnd in Hs.
  destruct (Z.leb_spec (Z.of_nat n + len m) a) as [Hsmall|Hbig].
  - assert (m = "") as -> by (apply length_zero; unfold len in *; lia).
    exists r. now rewrite app_nil_r.
  - exists (drop (Z.to_nat a) p). rewrite Hr. f_equal.
    unfold slice in Hs.
    destruct ((0 <=? a) && (a <=? Z.of_nat n + len m) && (Z.of_nat n + len m <=? len s));
      [|discriminate]. injection Hs as <-.
    rewrite Hpq, drop_app_le by lia.
    replace (Z.to_nat (Z.of_nat n + len m - a))
      with (String.length (drop (Z.to_nat a) p ++ m))
      by (rewrite length_app, length_drop; unfold len; lia).
    rewrite <- app_assoc. apply take_app.
Qed.

Lemma cleanupTerraformOutput_keeps_match_witness :
  exists pre,
    cleanupTerraformOutput true None planOneRule "" (Some (literal_dotplus planRule))
    = Some (pre ++ "─────────────").
Proof.
  apply (cleanupTerraformOutput_keeps_match true planOneRule "" (literal_dotplus planRule)
           "─────────────" []).
  - reflexivity.
  - vm_compute. discriminate.
Defined.

(** * Further properties of the plan file paths *)

Section JoinMore.

Import path.

Lemma split_from_nonempty (cur : list ascii) (s : string) : split_from cur s <> [].
Proof.
  revert cur. induction s as [|c s IH]; intros cur; simpl; [discriminate|].
  destruct (Ascii.eqb c "/"); [discriminate | apply IH].
Qed.

(** Joining the elements of a path with slashes gives the path back. *)
Lemma concat_split_from (cur : list ascii) (s : string) :
  String.concat "/" (split_from cur s) = string_of_list_ascii (rev cur) ++ s.
Proof.
  revert cur. induction s as [|c s IH]; intros cur.
  - simpl. now rewrite app_nil_r.
  - cbn [split_from]. destruct (Ascii.eqb_spec c "/") as [->|N].
    + pose proof (split_from_nonempty [] s) as Hne. specialize (IH []).
      destruct (split_from [] s) as [|x l]; [easy|].
      change (String.concat "/" (string_of_list_ascii (rev cur) :: x :: l))
        with (string_of_list_ascii (rev cur) ++ "/" ++ String.concat "/" (x :: l)).
      now rewrite IH.
    + rewrite IH. cbn [rev]. apply string_of_list_ascii_snoc.
Qed.

Lemma clean_elements_plain (rooted : bool) (kept es : list string) :
  Forall plain_element es -> clean_elements rooted kept es = (rev kept ++ es)%list.
Proof.
  intros H. revert kept. induction H as [|e es (_ & H0 & H1 & H2) _ IH]; intros kept.
  - simpl. now rewrite List.app_nil_r.
  - cbn [clean_elements]. apply String.eqb_neq in H0, H1, H2.
    rewrite H0, H1, H2. cbn [orb]. rewrite IH. cbn [rev].
    now rewrite <- List.app_assoc.
Qed.

Lemma Join_clean_relative (p f : string) :
  clean_relative p -> plain_element f -> Join [p; f] = p ++ "/" ++ f.
Proof.
  intros Hp Hf. pose proof Hf as (Hs & Hne & _).
  assert (Hpne : p <> "").
  { intros ->. unfold clean_relative in Hp. cbn in Hp.
    apply Forall_inv in Hp. now destruct Hp as (_ & E & _). }
  unfold Join. cbn [filter].
  apply String.eqb_neq in Hne, Hpne. rewrite Hne, Hpne. cbn [negb String.concat].
  destruct p as [|c p0]; [discriminate|].
  assert (Hc : Ascii.eqb c "/" = false).
  { destruct (Ascii.eqb_spec c "/") as [->|]; [|reflexivity].
    unfold clean_relative, elements in Hp. cbn in Hp.
    apply Forall_inv in Hp. now destruct Hp as (_ & E & _). }
  unfold Clean. cbn [append]. cbv zeta. rewrite Hc.
  change (String c (p0 ++ String "/" f)) with (String c p0 ++ String "/" f).
  rewrite (elements_snoc _ _ Hs), clean_elements_plain
    by (apply Forall_app; split; [exact Hp | now constructor]).
  cbn [rev List.app]. rewrite concat_snoc.
  pose proof (split_from_nonempty [] (String c p0)) as Hnil.
  unfold elements. destruct (split_from [] (String c p0)) as [|x l] eqn:E; [easy|].
  rewrite <- E, concat_split_from. cbn [rev string_of_list_ascii append].
  reflexivity.
Qed.

End JoinMore.

(** X9.  When the project name holds no slash, the local path and the storage
    key both end in the plan file name: their last path element is
    [PlanFileName], whatever the project path and the namespace are. *)
Theorem plan_paths_end_in_file_name (d : ProjectPathProvider.t) :
  has_byte "/" (ProjectPathProvider.ProjectName d) = false ->
  basename (ProjectPathProvider.LocalPlanFilePath d) = ProjectPathProvider.PlanFileName d /\
  basename (ProjectPathProvider.StoredPlanFilePath d) = ProjectPathProvider.PlanFileName d.
Proof.
  intros Hn. pose proof (PlanFileName_plain d Hn) as P.
  unfold ProjectPathProvider.LocalPlanFilePath, ProjectPathProvider.StoredPlanFilePath.
  now rewrite !basename_Join.
Qed.

Lemma plan_paths_end_in_file_name_witness :
  basename (ProjectPathProvider.LocalPlanFilePath orgRepoProd) = "org:repo#prod.tfplan" /\
  basename (ProjectPathProvider.StoredPlanFilePath orgRepoProd) = "org:repo#prod.tfplan".
Proof. exact (plan_paths_end_in_file_name orgRepoProd eq_refl). Defined.

(** X10.  For a project name without a slash: when the project path is made of
    plain elements the local path is the project path, a slash and the file
    name; when the namespace is made of plain elements the storage key is the
    namespace, a slash and the file name. *)
Theorem plan_paths_of_clean_identity (d : ProjectPathProvider.t) :
  has_byte "/" (ProjectPathProvider.ProjectName d) = false ->
  (clean_relative (ProjectPathProvider.ProjectPath d) ->
   ProjectPathProvider.LocalPlanFilePath d
   = ProjectPathProvider.ProjectPath d ++ "/" ++ ProjectPathProvider.PlanFileName d) /\
  (clean_relative (ProjectPathProvider.ProjectNamespace d) ->
   ProjectPathProvider.StoredPlanFilePath d
   = ProjectPathProvider.ProjectNamespace d ++ "/" ++ ProjectPathProvider.PlanFileName d).
Proof.
  intros Hn. pose proof (PlanFileName_plain d Hn) as P.
  split; intros Hc; now apply Join_clean_relative.
Qed.

Lemma plan_paths_of_clean_identity_witness :
  ProjectPathProvider.LocalPlanFilePath orgRepoProd = "dev/org:repo#prod.tfplan" /\
  ProjectPathProvider.StoredPlanFilePath orgRepoProd = "org/repo/org:repo#prod.tfplan".
Proof.
  destruct (plan_paths_of_clean_identity orgRepoProd eq_refl) as [H1 H2].
  split; [apply H1 | apply H2];
    repeat constructor; discriminate.
Defined.

(** * Further properties of the executors *)

Section ExecutorMore.

Context {S : Type}.

Import DiggerExecutor.

Local Arguments String.eqb : simpl never.
Local Arguments cleanupTerraformPlan : simpl never.
Local Arguments cleanupTerraformApply : simpl never.
Local Arguments append : simpl never.

Lemma cleanupTerraformOutput_Some (ne : bool) (err : option error)
    (stdout stderr : string) (re : option Regexp) :
  exists r, cleanupTerraformOutput ne err stdout stderr re = Some r.
Proof.
  destruct err as [e|].
  - rewrite cleanup_error. eauto.
  - destruct (cleanup_nil_Some ne stdout stderr re) as (r & Hr & _). eauto.
Qed.

Lemma cleanupTerraformPlan_not_None (ne : bool) (err : option error) (stdout stderr : string) :
  cleanupTerraformPlan ne err stdout stderr <> None.
Proof.
  unfold cleanupTerraformPlan.
  destruct (cleanupTerraformOutput_Some ne err stdout stderr (Some (literal_dotplus planRule)))
    as [r Hr]. cbv zeta. now rewrite Hr.
Qed.

Lemma cleanupTerraformApply_not_None (ne : bool) (err : option error) (stdout stderr : string) :
  cleanupTerraformApply ne err stdout stderr <> None.
Proof.
  unfold cleanupTerraformApply.
  destruct (cleanupTerraformOutput_Some ne err stdout stderr None) as [r Hr].
  now rewrite Hr.
Qed.

(** What the plan mode returns without an error is a piece of the output. *)
Lemma cleanupTerraformPlan_Substr (ne : bool) (stdout stderr p : string) :
  cleanupTerraformPlan ne None stdout stderr = Some p -> Substr p stdout.
Proof.
  unfold cleanupTerraformPlan. cbv zeta. intros H.
  destruct (cleanup_nil_Some ne stdout stderr (Some (literal_dotplus planRule)))
    as (r & Hr & Hs & _).
  rewrite H in Hr. injection Hr as <-.
  apply slice_Some in Hs as (k & _ & Hocc & _). apply OccursAt_Substr in Hocc.
  apply Substr_trans with (afterMarker stdout); [exact Hocc|].
  destruct (afterMarker_suffix stdout) as [pre Hpre].
  exists pre, "". now rewrite app_nil_r.
Qed.

(** *** Events of the loops *)

Lemma planLoop_Forall (P : Event -> Prop) (d : t S) :
  (forall step plan env s, Forall P (snd (planStep d step plan env s))) ->
  forall steps plan env s, Forall P (snd (planLoop d steps plan env s)).
Proof.
  intros Hstep steps. induction steps as [|step rest IH]; intros plan env s.
  - constructor.
  - cbn [planLoop]. unfold bind.
    pose proof (Hstep step plan env s) as H1.
    destruct (planStep d step plan env s) as [[[p|r|] s1] t1]; cbn in H1 |- *;
      try exact H1.
    pose proof (IH p env s1) as H2.
    destruct (planLoop d rest p env s1) as [[o s2] t2]. cbn in H2 |- *.
    now apply Forall_app.
Qed.

Lemma applyLoop_Forall (P : Event -> Prop) (d : t S) (pf : option string) :
  (forall step env s, Forall P (snd (applyStep d pf step env s))) ->
  forall steps env s, Forall P (snd (applyLoop d pf steps env s)).
Proof.
  intros Hstep steps. induction steps as [|step rest IH]; intros env s.
  - constructor.
  - cbn [applyLoop]. unfold bind.
    pose proof (Hstep step env s) as H1.
    destruct (applyStep d pf step env s) as [[[[]|r|] s1] t1]; cbn in H1 |- *;
      try exact H1.
    pose proof (IH env s1) as H2.
    destruct (applyLoop d pf rest env s1) as [[o s2] t2]. cbn in H2 |- *.
    now apply Forall_app.
Qed.

Lemma Plan_Forall (P : Event -> Prop) (d : t S) :
  (forall step plan env s, Forall P (snd (planStep d step plan env s))) ->
  forall env s, Forall P (snd (Plan d env s)).
Proof.
  intros Hstep env s. rewrite Plan_unfold.
  pose proof (planLoop_Forall P d Hstep (planSteps d) "" env s) as H.
  now destruct (planLoop d (planSteps d) "" env s) as [[[p|r|] s'] t].
Qed.

(** [Apply] in terms of its start and its loop. *)
Lemma Apply_unfold (d : t S) (env : Env) (s : S) :
  Apply d env s
  = match retrievePlan d env s with
    | (Next pf, s1, t1) =>
        match applyLoop d pf (applySteps d) env s1 with
        | (Next _, s2, t2) => (Some (true, None), s2, (t1 ++ t2)%list)
        | (Returned r, s2, t2) => (Some r, s2, (t1 ++ t2)%list)
        | (Panic, s2, t2) => (None, s2, (t1 ++ t2)%list)
        end
    | (Returned r, s1, t1) => (Some r, s1, t1)
    | (Panic, s1, t1) => (None, s1, t1)
    end.
Proof.
  unfold Apply, func, bind, returns.
  destruct (retrievePlan d env s) as [[[pf|r|] s1] t1]; try reflexivity.
  destruct (applyLoop d pf (applySteps d) env s1) as [[[[]|r|] s2] t2]; try reflexivity.
  now rewrite List.app_nil_r.
Qed.

(** *** What a step may end in *)

Lemma planStep_no_panic (d : t S) (step : models.Step) (plan : string)
    (env : Env) (s s' : S) (t : list Event) :
  planStep d step plan env s <> (Panic, s', t).
Proof.
  unfold planStep, bind, call, emit, must, getenv, next, returns.
  intros H. split_cases H; try discriminate H.
  all: match goal with
       | E : cleanupTerraformPlan _ _ _ _ = None |- _ =>
           now apply cleanupTerraformPlan_not_None in E
       end.
Qed.

Lemma planLoop_no_panic (d : t S) (steps : list models.Step) (plan : string)
    (env : Env) (s s' : S) (t : list Event) :
  planLoop d steps plan env s <> (Panic, s', t).
Proof.
  revert plan s t. induction steps as [|step rest IH]; intros plan s t; [discriminate|].
  cbn [planLoop]. unfold bind.
  destruct (planStep d step plan env s) as [[[p|r0|] s1] t1] eqn:E.
  - destruct (planLoop d rest p env s1) as [[o s2] t2] eqn:E2.
    intros [= -> <- <-]. now apply IH in E2.
  - discriminate.
  - now apply planStep_no_panic in E.
Qed.

Lemma applyStep_outcome (d : t S) (pf : option string) (step : models.Step)
    (env : Env) (s : S) :
  match applyStep d pf step env s with
  | (Next _, _, _) => True
  | (Returned r, _, _) => exists e, r = (false, Some e)
  | (Panic, _, _) => False
  end.
Proof.
  unfold applyStep, bind, call, emit, must, getenv, next, returns.
  split_goal; try exact I; try (eexists; reflexivity).
  all: match goal with
       | E : cleanupTerraformApply _ _ _ _ = None |- _ =>
           now apply cleanupTerraformApply_not_None in E
       end.
Qed.

Lemma applyLoop_outcome (d : t S) (pf : option string) (steps : list models.Step)
    (env : Env) (s : S) :
  match applyLoop d pf steps env s with
  | (Next _, _, _) => True
  | (Returned r, _, _) => exists e, r = (false, Some e)
  | (Panic, _, _) => False
  end.
Proof.
  revert s. induction steps as [|step rest IH]; intros s; [exact I|].
  cbn [applyLoop]. unfold bind.
  pose proof (applyStep_outcome d pf step env s) as H1.
  destruct (applyStep d pf step env s) as [[[[]|r0|] s1] t1]; try exact H1.
  pose proof (IH s1) as H2.
  now destruct (applyLoop d pf rest env s1) as [[[[]|r|] s2] t2].
Qed.

Lemma retrievePlan_outcome (d : t S) (env : Env) (s : S) :
  match retrievePlan d env s with
  | (Next _, _, _) => True
  | (Returned r, _, _) => exists e, r = (false, Some e)
  | (Panic, _, _) => False
  end.
Proof.
  unfold retrievePlan, bind, call, next, returns.
  split_goal; try exact I; eexists; reflexivity.
Qed.

End ExecutorMore.

(** X11.  [Plan] and [Apply] of the executor never panic: no slice of the
    sanitizer can be out of range.  [Plan] returns [true] with a plan text and
    no error, or [false] with no plan text and an error; [Apply] returns
    [true] with no error, or [false] with an error. *)
Theorem DiggerExecutor_results {S : Type} (d : DiggerExecutor.t S) (env : Env) (s : S) :
  (exists r s' t,
      DiggerExecutor.Plan d env s = (Some r, s', t) /\
      ((exists plan, r = (true, plan, None)) \/ (exists e, r = (false, "", Some e)))) /\
  (exists r s' t,
      DiggerExecutor.Apply d env s = (Some r, s', t) /\
      (r = (true, None) \/ (exists e, r = (false, Some e)))).
Proof.
  split.
  - rewrite Plan_unfold.
    destruct (DiggerExecutor.planLoop d (DiggerExecutor.planSteps d) "" env s)
      as [[[p|r|] s'] t] eqn:E.
    + do 3 eexists. split; [reflexivity|]. left. eauto.
    + apply planLoop_Returned in E. do 3 eexists. split; [reflexivity|]. now right.
    + now apply planLoop_no_panic in E.
  - rewrite Apply_unfold.
    pose proof (retrievePlan_outcome d env s) as H1.
    destruct (DiggerExecutor.retrievePlan d env s) as [[[pf|r|] s1] t1]; [| |easy].
    + pose proof (applyLoop_outcome d pf (DiggerExecutor.applySteps d) env s1) as H2.
      destruct (DiggerExecutor.applyLoop d pf (DiggerExecutor.applySteps d) env s1)
        as [[[[]|r|] s2] t2]; [| |easy];
        do 3 eexists; (split; [reflexivity|]); [now left | now right].
    + do 3 eexists. split; [reflexivity|]. now right.
Qed.

Section ExecutorEvents.

Context {S : Type}.

Import DiggerExecutor.

Local Arguments String.eqb : simpl never.
Local Arguments cleanupTerraformPlan : simpl never.
Local Arguments cleanupTerraformApply : simpl never.
Local Arguments append : simpl never.

Ltac event_list :=
  cbn; repeat (constructor;
               try (cbn; first [ exact I | reflexivity
                               | split; [reflexivity | eexists; reflexivity] ])).

Lemma planStep_overlays (d : t S) (step : models.Step) (plan : string)
    (env : Env) (s : S) :
  Forall (uses_overlays d) (snd (planStep d step plan env s)).
Proof.
  unfold planStep, bind, call, emit, must, getenv, next, returns.
  split_goal; event_list.
Qed.

Lemma applyStep_overlays (d : t S) (pf : option string) (step : models.Step)
    (env : Env) (s : S) :
  Forall (uses_overlays d) (snd (applyStep d pf step env s)).
Proof.
  unfold applyStep, bind, call, emit, must, getenv, next, returns.
  split_goal; event_list.
Qed.

Lemma retrievePlan_overlays (d : t S) (env : Env) (s : S) :
  Forall (uses_overlays d) (snd (retrievePlan d env s)).
Proof.
  unfold retrievePlan, bind, call, next, returns.
  split_goal; event_list.
Qed.

Lemma planStep_events (d : t S) (step : models.Step) (plan : string)
    (env : Env) (s : S) :
  Forall (plan_event (has_storage d)) (snd (planStep d step plan env s)).
Proof.
  unfold has_storage, planStep, bind, call, emit, must, getenv, next, returns.
  split_goal; event_list.
Qed.

Lemma applyStep_events (d : t S) (pf : option string) (step : models.Step)
    (env : Env) (s : S) :
  Forall (fun ev => apply_event ev /\ applies_file pf ev)
         (snd (applyStep d pf step env s)).
Proof.
  unfold applyStep, bind, call, emit, must, getenv, next, returns.
  split_goal; cbn; repeat (constructor; try (cbn; now split)).
Qed.

(** An abort of a step comes right after the call that failed. *)
Lemma planStep_abort (d : t S) (step : models.Step) (plan : string)
    (env : Env) (s s' : S) (r : PlanResult) (t : list Event) :
  planStep d step plan env s = (Returned r, s', t) ->
  exists pre ev, t = (pre ++ [ev])%list /\ explains_abort ev r.
Proof.
  unfold planStep, bind, call, emit, must, getenv, next, returns.
  intros H. split_cases H; try discriminate H; injection H as <- <- <-;
    match goal with
    | |- exists pre ev, ?l = _ /\ _ =>
        exists (removelast l), (last l (Logged "")); split; reflexivity
    end.
Qed.

Lemma planLoop_abort (d : t S) (steps : list models.Step) (plan : string)
    (env : Env) (s s' : S) (r : PlanResult) (t : list Event) :
  planLoop d steps plan env s = (Returned r, s', t) ->
  exists pre ev, t = (pre ++ [ev])%list /\ explains_abort ev r.
Proof.
  revert plan s t. induction steps as [|step rest IH]; intros plan s t; [discriminate|].
  cbn [planLoop]. unfold bind.
  destruct (planStep d step plan env s) as [[[p|r0|] s1] t1] eqn:E.
  - destruct (planLoop d rest p env s1) as [[o s2] t2] eqn:E2.
    intros [= -> <- <-]. apply IH in E2 as (pre & ev & -> & Hev).
    exists (t1 ++ pre)%list, ev. now rewrite List.app_assoc.
  - intros [= <- <- <-]. now apply planStep_abort in E.
  - discriminate.
Qed.

(** X16.  A plan step that completes when there is a storage has replaced the
    stored plan: after the tool's [Plan] it asked whether a plan exists under
    the storage key, deleted it if so, stored the local plan file under that
    key, and only then sanitized the output, which is the plan text of the
    step.  Nothing else happened in the step. *)
Theorem planStep_stored (d : t S) (ps : storage.PlanStorage S) (step : models.Step)
    (plan0 p : string) (env : Env) (s s' : S) (t : list Event) :
  PlanStorage d = Some ps ->
  models.Action step = "plan" ->
  planStep d step plan0 env s = (Next p, s', t) ->
  exists ne stdout stderr planExists,
    t = ([CallPlan (["-out"; PlanPathProvider.PlanFileName (PlanPathProvider d)]
                    ++ models.ExtraArgs step) (CommandEnvVars d)
            (ne, stdout, stderr, None);
          CallPlanExists (PlanPathProvider.StoredPlanFilePath (PlanPathProvider d))
            (planExists, None)]
         ++ (if planExists
             then [CallDeleteStoredPlan
                     (PlanPathProvider.StoredPlanFilePath (PlanPathProvider d)) None]
             else [])
         ++ [CallStorePlan (PlanPathProvider.LocalPlanFilePath (PlanPathProvider d))
               (PlanPathProvider.StoredPlanFilePath (PlanPathProvider d)) None;
             Sanitize CleanupPlan ne None stdout stderr])%list /\
    cleanupTerraformPlan ne None stdout stderr = Some p.
Proof.
  intros Hps HA. unfold planStep. rewrite HA, Hps.
  change ("plan" =? "init")%string with false.
  change ("plan" =? "plan")%string with true.
  change ("plan" =? "run")%string with false.
  unfold bind, call, emit, must, getenv, next, returns.
  intros H. split_cases H; try discriminate H;
    injection H as <- <- <-; do 3 eexists;
    first [ exists true; split; [reflexivity | eassumption]
          | exists false; split; [reflexivity | eassumption] ].
Qed.

End ExecutorEvents.

Lemma planStep_stored_witness :
  exists ne stdout stderr planExists,
    [CallPlan ["-out"; "org:repo#prod.tfplan"] [("TF_VAR_x", "1")] (true, planOneRule, "", None);
     CallPlanExists "org/repo/org:repo#prod.tfplan" (true, None);
     CallDeleteStoredPlan "org/repo/org:repo#prod.tfplan" None;
     CallStorePlan "dev/org:repo#prod.tfplan" "org/repo/org:repo#prod.tfplan" None;
     Sanitize CleanupPlan true None planOneRule ""]
    = ([CallPlan (["-out"; "org:repo#prod.tfplan"] ++ []) [("TF_VAR_x", "1")]
          (ne, stdout, stderr, None);
        CallPlanExists "org/repo/org:repo#prod.tfplan" (planExists, None)]
       ++ (if planExists
           then [CallDeleteStoredPlan "org/repo/org:repo#prod.tfplan" None]
           else [])
       ++ [CallStorePlan "dev/org:repo#prod.tfplan" "org/repo/org:repo#prod.tfplan" None;
           Sanitize CleanupPlan ne None stdout stderr])%list /\
    cleanupTerraformPlan ne None stdout stderr = Some planOneRuleClean.
Proof.
  exact (planStep_stored (storedExecutor None None goodTerraform (fixedStorage true None))
           (fixedStorage true None) (models.action "plan") "" planOneRuleClean
           (environ []) tt tt _ eq_refl eq_refl eq_refl).
Defined.

(** X12.  The plan text [Plan] returns with [true] is a piece of what the tool
    printed in its last [Plan] call (and empty when there was none): [Plan]
    never returns text that the tool did not print. *)
Theorem Plan_text_is_tool_output {S : Type} (d : DiggerExecutor.t S) (env : Env)
    (s s' : S) (plan : string) (err : option error) (t : list Event) :
  DiggerExecutor.Plan d env s = (Some (true, plan, err), s', t) ->
  match lastPlanCall t with
  | Some (_, stdout, _, _) => Substr plan stdout
  | None => plan = ""
  end.
Proof.
  rewrite Plan_unfold.
  destruct (DiggerExecutor.planLoop d (DiggerExecutor.planSteps d) "" env s)
    as [[[p|r|] s1] t1] eqn:E.
  - intros [= <- <- <- <-]. apply planLoop_Next in E.
    destruct (lastPlanCall t1) as [[[[ne so] se] perr]|]; [|apply E].
    destruct E as [-> E]. now apply cleanupTerraformPlan_Substr in E.
  - intros [= -> <- <-]. apply planLoop_Returned in E as [e E]. discriminate E.
  - discriminate.
Qed.

Lemma Plan_text_is_tool_output_witness : Substr planOneRuleClean planOneRule.
Proof.
  exact (Plan_text_is_tool_output planTwice (environ []) tt tt planOneRuleClean None _
           eq_refl).
Defined.

(** X13.  In every run of [Plan] and of [Apply] the tool's [Init] gets the
    state overlay and its [Plan] and [Apply] get the command overlay, never
    the other one; and every [Plan] call of the tool has [-out] and the plan
    file name as its first two arguments, before the step's own. *)
Theorem tool_calls_use_overlays {S : Type} (d : DiggerExecutor.t S) (env : Env) (s : S) :
  Forall (uses_overlays d) (snd (DiggerExecutor.Plan d env s)) /\
  Forall (uses_overlays d) (snd (DiggerExecutor.Apply d env s)).
Proof.
  split.
  - apply Plan_Forall. apply planStep_overlays.
  - rewrite Apply_unfold.
    pose proof (retrievePlan_overlays d env s) as H1.
    destruct (DiggerExecutor.retrievePlan d env s) as [[[pf|r|] s1] t1]; try exact H1.
    pose proof (applyLoop_Forall _ d pf (applyStep_overlays d pf)
                  (DiggerExecutor.applySteps d) env s1) as H2.
    destruct (DiggerExecutor.applyLoop d pf (DiggerExecutor.applySteps d) env s1)
      as [[[[]|r|] s2] t2]; cbn in *; now apply Forall_app.
Qed.

(** X14.  [Plan] never applies, never reports and never retrieves a plan: its
    events are calls of [Init], [Plan] and [Run], the sanitizer in plan mode
    and printed lines; it calls the storage only when the executor has
    one. *)
Theorem Plan_events_allowed {S : Type} (d : DiggerExecutor.t S) (env : Env) (s : S) :
  Forall (plan_event (has_storage d)) (snd (DiggerExecutor.Plan d env s)).
Proof. apply Plan_Forall. apply planStep_events. Qed.

(** X15.  Whenever [Plan] returns [false], the last thing it did is a call that
    failed, and its error is that call's error under the name of the
    operation; the plan text is empty. *)
Theorem Plan_abort_after_failed_call {S : Type} (d : DiggerExecutor.t S) (env : Env)
    (s s' : S) (text : string) (err : option error) (t : list Event) :
  DiggerExecutor.Plan d env s = (Some (false, text, err), s', t) ->
  exists pre ev, t = (pre ++ [ev])%list /\ explains_abort ev (false, text, err).
Proof.
  rewrite Plan_unfold.
  destruct (DiggerExecutor.planLoop d (DiggerExecutor.planSteps d) "" env s)
    as [[[p|r|] s1] t1] eqn:E; try discriminate.
  intros [= -> <- <-]. now apply planLoop_abort in E.
Qed.

Lemma Plan_abort_after_failed_call_witness :
  exists pre ev,
    [CallInit [] [] None;
     CallPlan ["-out"; "org:repo#prod.tfplan"] []
       (true, "Planning failed.", "Error: no credentials", Some "exit status 1")]
    = (pre ++ [ev])%list /\
    explains_abort ev (false, "", Some "error executing plan: exit status 1").
Proof.
  exact (Plan_abort_after_failed_call failingPlan (environ []) tt tt ""
           (Some "error executing plan: exit status 1") _ eq_refl).
Defined.

Section ApplyMore.

Context {S : Type}.

Import DiggerExecutor.

Local Arguments append : simpl never.

(** X17.  When the plan cannot be retrieved from the storage, [Apply] returns
    [false] with the error wrapped, and the call of [RetrievePlan] is all it
    did: no step of the stage runs. *)
Theorem Apply_retrieve_failure (d : t S) (ps : storage.PlanStorage S) (env : Env)
    (s s' : S) (file : option string) (e : error) :
  PlanStorage d = Some ps ->
  storage.RetrievePlan ps (PlanPathProvider.LocalPlanFilePath (PlanPathProvider d))
    (PlanPathProvider.StoredPlanFilePath (PlanPathProvider d)) s
    = ((file, Some e), s') ->
  Apply d env s
  = (Some (false, Some ("error retrieving plan: " ++ e)), s',
     [CallRetrievePlan (PlanPathProvider.LocalPlanFilePath (PlanPathProvider d))
        (PlanPathProvider.StoredPlanFilePath (PlanPathProvider d)) (file, Some e)]).
Proof.
  intros Hps HR. rewrite Apply_unfold. unfold retrievePlan. rewrite Hps.
  unfold bind, call, returns. cbv zeta. now rewrite HR.
Qed.

(** X18.  [Apply] retrieves the plan at most once, and before anything else.
    Without a storage its events are those of the steps only, and every
    [Apply] call of the tool gets no plan file.  With a storage the first
    event is the call of [RetrievePlan] with the local path and the storage
    key, and every [Apply] call of the tool gets the file that call returned.
    The steps never plan and never touch the storage. *)
Theorem Apply_events (d : t S) (env : Env) (s : S) :
  match PlanStorage d with
  | None =>
      Forall (fun ev => apply_event ev /\ applies_file None ev) (snd (Apply d env s))
  | Some ps =>
      let local := PlanPathProvider.LocalPlanFilePath (PlanPathProvider d) in
      let stored := PlanPathProvider.StoredPlanFilePath (PlanPathProvider d) in
      let result := fst (storage.RetrievePlan ps local stored s) in
      exists t,
        snd (Apply d env s) = CallRetrievePlan local stored result :: t /\
        Forall (fun ev => apply_event ev /\ applies_file (fst result) ev) t
  end.
Proof.
  rewrite Apply_unfold. unfold retrievePlan.
  destruct (PlanStorage d) as [ps|].
  - cbv zeta. unfold bind, call, next, returns.
    destruct (storage.RetrievePlan ps _ _ s) as [[file [e|]] s1]; cbn.
    + exists []. now split.
    + pose proof (applyLoop_Forall _ d file (applyStep_events d file)
                    (applySteps d) env s1) as H.
      destruct (applyLoop d file (applySteps d) env s1) as [[[[]|r|] s2] t2];
        cbn in *; eexists; (split; [reflexivity | exact H]).
  - unfold next.
    pose proof (applyLoop_Forall _ d None (applyStep_events d None)
                  (applySteps d) env s) as H.
    now destruct (applyLoop d None (applySteps d) env s) as [[[[]|r|] s2] t2].
Qed.

(** X19.  An [apply] step whose tool call succeeds makes one report, of the
    output sanitized in apply mode under the label of the project, and goes
    on to the next step.  A report that cannot be delivered does not stop it:
    a line is printed, which shows the error of the apply call, [<nil>], and
    not the error of the report. *)
Theorem applyStep_success (d : t S) (pf : option string) (step : models.Step)
    (env : Env) (s1 s2 : S) (stdout stderr : string) :
  models.Action step = "apply" ->
  terraform.Apply (TerraformExecutor d) (models.ExtraArgs step) pf (CommandEnvVars d) s1
    = ((stdout, stderr, None), s2) ->
  exists output,
    cleanupTerraformApply true None stdout stderr = Some output /\
    let label := utils.GetTerraformOutputAsCollapsibleComment
                   ("Apply for <b>" ++ ProjectNamespace d ++ "#" ++ ProjectName d ++ "</b>") in
    let r := reporting.Report (Reporter d) output label s2 in
    applyStep d pf step env s1
    = (Next tt, snd r,
       ([CallApply (models.ExtraArgs step) pf (CommandEnvVars d) (stdout, stderr, None);
         Sanitize CleanupApply true None stdout stderr;
         CallReport output label (fst r)]
        ++ match fst r with
           | Some _ => [Printed "error publishing comment: <nil>"]
           | None => []
           end)%list).
Proof.
  intros HA HT.
  destruct (cleanupTerraformOutput_Some true None stdout stderr None) as [output Hout].
  exists output. split; [exact Hout|]. cbv zeta.
  unfold applyStep. rewrite HA.
  change ("apply" =? "init")%string with false.
  change ("apply" =? "apply")%string with true.
  change ("apply" =? "run")%string with false.
  cbv iota. rewrite bind_next_l.
  unfold bind at 1. unfold bind at 1. unfold bind at 1. unfold call at 1.
  rewrite HT. cbv iota beta zeta.
  unfold cleanupTerraformApply. rewrite Hout.
  unfold bind, call, emit, must, returns, next.
  destruct (reporting.Report (Reporter d) output _ s2) as [[c|] s3]; reflexivity.
Qed.

Lemma applyStep_unknown (d : t S) (pf : option string) (step : models.Step)
    (env : Env) (s : S) :
  unknown_to_Apply step -> applyStep d pf step env s = (Next tt, s, []).
Proof.
  intros (H1 & H2 & H3). apply String.eqb_neq in H1, H2, H3.
  unfold applyStep. rewrite H1, H2, H3.
  now rewrite !bind_next_l.
Qed.

(** X20.  [Apply] passes over every step whose action it does not know, a
    [plan] step among them: a stage of such steps does nothing after the plan
    was retrieved, and [Apply] returns [true]. *)
Theorem Apply_ignores_unknown_steps (d : t S) (env : Env) (s s1 : S)
    (pf : option string) (t1 : list Event) :
  Forall unknown_to_Apply (applySteps d) ->
  retrievePlan d env s = (Next pf, s1, t1) ->
  Apply d env s = (Some (true, None), s1, t1).
Proof.
  intros Hall Hret. rewrite Apply_unfold, Hret.
  assert (Hloop : forall steps s0, Forall unknown_to_Apply steps ->
                                   applyLoop d pf steps env s0 = (Next tt, s0, [])).
  { induction 1 as [|step rest Hstep _ IH]; [reflexivity|].
    cbn [applyLoop]. unfold bind. now rewrite (applyStep_unknown _ _ _ _ _ Hstep), IH. }
  rewrite (Hloop _ _ Hall). now rewrite List.app_nil_r.
Qed.


End ApplyMore.

Lemma Apply_retrieve_failure_witness :
  DiggerExecutor.Apply
    (storedExecutor None None goodTerraform (fixedStorage true (Some "no such key")))
    (environ []) tt
  = (Some (false, Some ("error retrieving plan: " ++ "no such key")), tt,
     [CallRetrievePlan "dev/org:repo#prod.tfplan" "org/repo/org:repo#prod.tfplan"
        (Some "dev/org:repo#prod.tfplan", Some "no such key")]).
Proof.
  exact (Apply_retrieve_failure
           (storedExecutor None None goodTerraform (fixedStorage true (Some "no such key")))
           (fixedStorage true (Some "no such key")) (environ []) tt tt
           (Some "dev/org:repo#prod.tfplan") "no such key" eq_refl eq_refl).
Defined.

Lemma applyStep_success_witness :
  exists output,
    cleanupTerraformApply true None
      appliedOutput ""
    = Some output /\
    DiggerExecutor.applyStep
      (storedExecutor None None goodTerraform (fixedStorage true None))
      (Some "dev/org:repo#prod.tfplan") (models.action "apply") (environ []) tt
    = (Next tt, tt,
       ([CallApply [] (Some "dev/org:repo#prod.tfplan") [("TF_VAR_x", "1")]
           (appliedOutput, "", None);
         Sanitize CleanupApply true None
           appliedOutput "";
         CallReport output
           (utils.GetTerraformOutputAsCollapsibleComment "Apply for <b>org/repo#prod</b>")
           (Some "no network")]
        ++ [Printed "error publishing comment: <nil>"])%list).
Proof.
  exact (applyStep_success
           (storedExecutor None None goodTerraform (fixedStorage true None))
           (Some "dev/org:repo#prod.tfplan") (models.action "apply") (environ []) tt tt
           appliedOutput ""
           eq_refl eq_refl).
Defined.

Lemma Apply_ignores_unknown_steps_witness :
  DiggerExecutor.Apply
    (prodExecutor None (Some {| models.Steps := [models.action "plan"] |})
       goodTerraform (fixedReporter None))
    (environ []) tt
  = (Some (true, None), tt, []).
Proof.
  apply (Apply_ignores_unknown_steps
           (prodExecutor None (Some {| models.Steps := [models.action "plan"] |})
              goodTerraform (fixedReporter None))
           (environ []) tt tt None []).
  - repeat constructor; discriminate.
  - reflexivity.
Defined.


(** X22.  [Unlock] calls [ForceUnlock()] of the lock and [Lock] calls its
    [Lock()], once and first.  When that call gives no error it is the only
    call, and the wrapper returns [nil]; [Lock] does so whether or not the
    lock was acquired.  When it gives an error, the wrapper next asks the
    lock for its id with [LockId()], which is the only other call, and
    returns "failed to aquire lock: <id>, <err>"; the state is the one
    [LockId()] left.  The wrapped executor is called in neither. *)
Theorem LockingExecutorWrapper_lock_errors {S : Type}
    (l : LockingExecutorWrapper.t S) (env : Env) (s : S) :
  (let (err, s1) := locking.ForceUnlock (LockingExecutorWrapper.ProjectLock l) s in
   LockingExecutorWrapper.Unlock l env s
   = match err with
     | None => (Some None, s1, [CallForceUnlock None])
     | Some e =>
         let (id, s2) := locking.LockId (LockingExecutorWrapper.ProjectLock l) s1 in
         (Some (Some ("failed to aquire lock: " ++ id ++ ", " ++ e)), s2,
          [CallForceUnlock (Some e); CallLockId id])
     end) /\
  (let '(acquired, err, s1) := locking.Lock (LockingExecutorWrapper.ProjectLock l) s in
   LockingExecutorWrapper.Lock l env s
   = match err with
     | None => (Some None, s1, [CallLock acquired None])
     | Some e =>
         let (id, s2) := locking.LockId (LockingExecutorWrapper.ProjectLock l) s1 in
         (Some (Some ("failed to aquire lock: " ++ id ++ ", " ++ e)), s2,
          [CallLock acquired (Some e); CallLockId id])
     end).
Proof.
  split.
  - unfold LockingExecutorWrapper.Unlock, func, bind, call, returns.
    destruct (locking.ForceUnlock (LockingExecutorWrapper.ProjectLock l) s) as [[e|] s1];
      [|reflexivity].
    now destruct (locking.LockId (LockingExecutorWrapper.ProjectLock l) s1) as [id s2].
  - unfold LockingExecutorWrapper.Lock, func, bind, call, returns.
    destruct (locking.Lock (LockingExecutorWrapper.ProjectLock l) s) as [[acq [e|]] s1];
      [|reflexivity].
    now destruct (locking.LockId (LockingExecutorWrapper.ProjectLock l) s1) as [id s2].
Qed.
